(** * build_config_map.py: frontmatter extraction and aggregation

    A shallow embedding of [bin/build_config_map.py] and the properties of
    its two functions, [parse_frontmatter] and [parse_dir], and of the
    script body under [if __name__ == '__main__'].

    Conventions of the embedding:
    - a Python [str] is a [string]; every character is a code point below
      256, which covers the separators, the whitespace test and the
      messages of the script;
    - the objects built by [yaml.safe_load] are the inductive type [pyobj];
    - a Python [dict] is an association list in insertion order;
    - a computation that prints and may raise is a value of the monad [Py]:
      it threads the two output streams and the module global [scanpath],
      and ends in [Returned] or [Raised];
    - the file system and the YAML library are not part of the script; they
      are the fields of a [World], and every statement holds for all of
      them. *)

From Stdlib Require Import List String Ascii Bool Arith Lia ZArith.
From Stdlib Require Import Permutation Sorted RelationClasses.
Import ListNotations.
Open Scope string_scope.
Set Warnings "-register-all".

(** ** Python strings *)

Module PyStr.

(** The newline character, for building file contents. *)
Definition nl : string := String "010"%char EmptyString.

(** [str.isspace] on one character, for the code points below 256:
    U+0009..U+000D, U+001C..U+001F, U+0020, U+0085 and U+00A0. *)
Definition isspace (c : ascii) : bool :=
  let n := nat_of_ascii c in
  (((9 <=? n) && (n <=? 13)) || ((28 <=? n) && (n <=? 32))
   || (n =? 133) || (n =? 160))%nat.

Fixpoint lstrip (s : string) : string :=
  match s with
  | EmptyString => EmptyString
  | String c s' => if isspace c then lstrip s' else s
  end.

Fixpoint rstrip (s : string) : string :=
  match s with
  | EmptyString => EmptyString
  | String c s' =>
      match rstrip s' with
      | EmptyString => if isspace c then EmptyString else String c EmptyString
      | r => String c r
      end
  end.

(** [s.strip()] with no argument. *)
Definition strip (s : string) : string := rstrip (lstrip s).

(** Every character of [s] is whitespace. *)
Fixpoint blank (s : string) : bool :=
  match s with
  | EmptyString => true
  | String c s' => isspace c && blank s'
  end.

(** [sub in s] for two strings: [sub] occurs in [s]. *)
Fixpoint contains (sub s : string) : bool :=
  prefix sub s ||
  match s with
  | EmptyString => false
  | String _ s' => contains sub s'
  end.

(** [s.endswith(suf)]. *)
Fixpoint endswith (suf s : string) : bool :=
  (s =? suf) ||
  match s with
  | EmptyString => false
  | String _ s' => endswith suf s'
  end.

(** [s.split(sep)] for a non-empty [sep]: the scan goes left to right and
    cuts at every occurrence of [sep] that does not overlap the previous
    one.  [split_from skip s] returns the segment under construction and
    the segments after it; [skip] counts the characters of a separator
    that are still to be consumed. *)
Fixpoint split_from (sep : string) (skip : nat) (s : string)
  : string * list string :=
  match s with
  | EmptyString => (EmptyString, [])
  | String c s' =>
      match skip with
      | S k => split_from sep k s'
      | O =>
          if prefix sep s
          then (EmptyString,
                let (h, t) := split_from sep (String.length sep - 1) s' in
                h :: t)
          else let (h, t) := split_from sep 0 s' in (String c h, t)
      end
  end.

Definition split (sep s : string) : list string :=
  let (h, t) := split_from sep 0 s in h :: t.

(** [sep.join(parts)]. *)
Definition join (sep : string) (parts : list string) : string :=
  String.concat sep parts.

End PyStr.

Import PyStr.

(** ** Python objects, exceptions and the [Py] monad *)

(** The objects that [yaml.safe_load] builds (a tuple only inside the list
    of a [!!pairs] or [!!omap] node).  A float, a byte string and a
    timestamp carry their text: the script never computes on them.  A
    timestamp without a time is a [datetime.date], one with a time a
    [datetime.datetime].  A [dict] lists its items in insertion order,
    its keys pairwise different. *)
Inductive pyobj : Type :=
| PNone
| PBool (b : bool)
| PInt (z : Z)
| PFloat (repr : string)
| PStr (s : string)
| PBytes (b : string)
| PDate (iso : string)
| PDateTime (iso : string)
| PList (items : list pyobj)
| PTuple (items : list pyobj)
| PSet (items : list pyobj)
| PDict (items : list (pyobj * pyobj)).

(** [type(o).__name__]. *)
Definition type_name (o : pyobj) : string :=
  match o with
  | PNone => "NoneType"
  | PBool _ => "bool"
  | PInt _ => "int"
  | PFloat _ => "float"
  | PStr _ => "str"
  | PBytes _ => "bytes"
  | PDate _ => "datetime.date"
  | PDateTime _ => "datetime.datetime"
  | PList _ => "list"
  | PTuple _ => "tuple"
  | PSet _ => "set"
  | PDict _ => "dict"
  end.

(** An instance of a subclass of [Exception]: its class and [str(e)]. *)
Record Exception : Type := mkException {
  exc_class : string;
  exc_str : string
}.

Definition TypeError (msg : string) : Exception := mkException "TypeError" msg.
Definition KeyError (msg : string) : Exception := mkException "KeyError" msg.
Definition NameError (msg : string) : Exception := mkException "NameError" msg.

(** What a [raise] carries: an [Exception], or the [SystemExit] of
    [sys.exit], which [except Exception] does not catch. *)
Inductive raised : Type :=
| RException (e : Exception)
| RSystemExit (code : nat).

Inductive outcome (A : Type) : Type :=
| Returned (a : A)
| Raised (r : raised).
Arguments Returned {A} a.
Arguments Raised {A} r.

(** The result of a call into the file system or the YAML library. *)
Inductive result (A : Type) : Type :=
| Ok (a : A)
| Err (e : Exception).
Arguments Ok {A} a.
Arguments Err {A} e.

(** A [pathlib.Path]: its parts. *)
Definition Path : Type := list string.

(** [p.name]: the final part, empty for a path that is only a root. *)
Definition name (p : Path) : string :=
  match p with
  | [a] => if prefix "/" a then "" else a
  | _ => last p ""
  end.

(** [p / n]. *)
Definition joinpath (p : Path) (n : string) : Path := (p ++ [n])%list.

(** [str(p)] on a POSIX system: a root is not followed by a separator,
    and the path without parts is written as a dot. *)
Definition path_str (p : Path) : string :=
  match p with
  | [] => "."
  | a :: rest => if prefix "/" a then a ++ join "/" rest else join "/" p
  end.

(** What the interpreter holds while the script runs: the text printed on
    each stream, one element for each call of [print], and the module
    global [scanpath], [None] while the name is unbound. *)
Record state : Type := mkState {
  stdout : list string;
  stderr : list string;
  scanpath : option Path
}.

Definition Py (A : Type) : Type := state -> outcome A * state.

Definition ret {A} (a : A) : Py A := fun st => (Returned a, st).

Definition raise {A} (r : raised) : Py A := fun st => (Raised r, st).

Definition bind {A B} (c : Py A) (k : A -> Py B) : Py B :=
  fun st =>
    match c st with
    | (Returned a, st') => k a st'
    | (Raised r, st') => (Raised r, st')
    end.

Notation "x <- c ;; k" := (bind c (fun x => k))
  (at level 61, c at next level, right associativity).
Notation "c ;;; k" := (bind c (fun _ => k))
  (at level 61, right associativity).

(** A library call inside the script: an error is raised. *)
Definition call {A} (r : result A) : Py A :=
  match r with
  | Ok a => ret a
  | Err e => raise (RException e)
  end.

(** [print(s)]. *)
Definition print (s : string) : Py unit :=
  fun st => (Returned tt, mkState (stdout st ++ [s])%list (stderr st) (scanpath st)).

(** [print(s, file=sys.stderr)]. *)
Definition print_err (s : string) : Py unit :=
  fun st => (Returned tt, mkState (stdout st) (stderr st ++ [s])%list (scanpath st)).

(** [try: body / except Exception as e: handler(e)]. *)
Definition try_except {A} (body : Py A) (handler : Exception -> Py A) : Py A :=
  fun st =>
    match body st with
    | (Raised (RException e), st') => handler e st'
    | other => other
    end.

(** Reading and binding the module global [scanpath]. *)
Definition load_scanpath : Py Path :=
  fun st =>
    match scanpath st with
    | Some p => (Returned p, st)
    | None =>
        (Raised (RException (NameError "name 'scanpath' is not defined")), st)
    end.

Definition store_scanpath (p : Path) : Py unit :=
  fun st => (Returned tt, mkState (stdout st) (stderr st) (Some p)).

(** ** Operations on the decoded objects *)

(** [field == o] for a string [field]: only an equal string is equal. *)
Definition is_str (field : string) (o : pyobj) : bool :=
  match o with
  | PStr s => s =? field
  | _ => false
  end.

(** [d.get(field)] on the items of a [dict], for a string [field]. *)
Fixpoint dict_get (items : list (pyobj * pyobj)) (field : string)
  : option pyobj :=
  match items with
  | [] => None
  | (k, v) :: items' => if is_str field k then Some v else dict_get items' field
  end.

(** [field in data].  The messages are those of CPython 3.12. *)
Definition py_contains (data : pyobj) (field : string) : result bool :=
  match data with
  | PDict items => Ok (existsb (is_str field) (map fst items))
  | PList items => Ok (existsb (is_str field) items)
  | PTuple items => Ok (existsb (is_str field) items)
  | PSet items => Ok (existsb (is_str field) items)
  | PStr s => Ok (contains field s)
  | PBytes _ => Err (TypeError "a bytes-like object is required, not 'str'")
  | _ => Err (TypeError ("argument of type '" ++ type_name data
                         ++ "' is not iterable"))
  end.

(** [data[field]]. *)
Definition py_getitem (data : pyobj) (field : string) : result pyobj :=
  match data with
  | PDict items =>
      match dict_get items field with
      | Some v => Ok v
      | None => Err (KeyError ("'" ++ field ++ "'"))
      end
  | PStr _ => Err (TypeError "string indices must be integers, not 'str'")
  | PBytes _ => Err (TypeError "byte indices must be integers or slices, not str")
  | PList _ => Err (TypeError "list indices must be integers or slices, not str")
  | PTuple _ =>
      Err (TypeError "tuple indices must be integers or slices, not str")
  | _ => Err (TypeError ("'" ++ type_name data ++ "' object is not subscriptable"))
  end.

(** The [dict] that [parse_frontmatter] builds: its keys are strings. *)
Definition record : Type := list (string * pyobj).

(** [d[k] = v]: the value of an existing key is replaced in place, a new
    key goes last. *)
Fixpoint dict_set (d : record) (k : string) (v : pyobj) : record :=
  match d with
  | [] => [(k, v)]
  | (k', v') :: d' =>
      if k' =? k then (k', v) :: d' else (k', v') :: dict_set d' k v
  end.

(** [d.get(k)] on a record. *)
Fixpoint lookup (k : string) (d : record) : option pyobj :=
  match d with
  | [] => None
  | (k', v) :: d' => if k' =? k then Some v else lookup k d'
  end.

(** The truth value of a [dict] or a [list]. *)
Definition truthy {A} (l : list A) : bool :=
  match l with
  | [] => false
  | _ :: _ => true
  end.

(** ** Ordering of paths *)

(** [p < q] on POSIX paths: the parts are compared as lists of strings,
    each string by code points. *)
Fixpoint path_compare (p q : Path) : comparison :=
  match p, q with
  | [], [] => Eq
  | [], _ :: _ => Lt
  | _ :: _, [] => Gt
  | a :: p', b :: q' =>
      match String.compare a b with
      | Eq => path_compare p' q'
      | c => c
      end
  end.

Definition path_ltb (p q : Path) : bool :=
  match path_compare p q with
  | Lt => true
  | _ => false
  end.

(** [sorted(l)] is stable and calls only [<].  [insert_by ltb x l] puts
    [x] in front of the first element that is not below it. *)
Fixpoint insert_by {A} (ltb : A -> A -> bool) (x : A) (l : list A) : list A :=
  match l with
  | [] => [x]
  | y :: l' => if ltb y x then y :: insert_by ltb x l' else x :: l
  end.

Fixpoint sorted_by {A} (ltb : A -> A -> bool) (l : list A) : list A :=
  match l with
  | [] => []
  | x :: l' => insert_by ltb x (sorted_by ltb l')
  end.

Definition sorted (l : list Path) : list Path := sorted_by path_ltb l.

(** ** The world outside the script *)

(** The value that [parse_dir] returns when it found records:
    [{'config_map': all_data}]. *)
Inductive output : Type :=
| ConfigMap (all_data : list record).

Record World : Type := mkWorld {
  (** [open(p, 'r', encoding='utf-8')] and [f.read()]. *)
  read_text : Path -> result string;
  (** [yaml.safe_load]. *)
  safe_load : string -> result pyobj;
  (** the names of the entries of a directory, as the system lists them. *)
  iterdir : Path -> list string;
  (** [p.is_dir()]. *)
  is_dir : Path -> bool;
  (** [yaml.dump(o, sort_keys=False, indent=2)]; [None] is Python's [None]. *)
  dump : option output -> string
}.

(** ** The script *)

Definition YAML_SEPARATOR : string := "---".

Section Script.

Variable w : World.

(** The loop of lines 34 to 36.  It prints nothing, so its outcome is a
    [result]: the dictionary built, or the exception of the first
    membership test or subscription that fails. *)
Fixpoint collect_fields (field_list : list string) (data : pyobj)
  (return_hash : record) : result record :=
  match field_list with
  | [] => Ok return_hash
  | field :: rest =>
      match py_contains data field with
      | Err e => Err e
      | Ok false => collect_fields rest data return_hash
      | Ok true =>
          match py_getitem data field with
          | Err e => Err e
          | Ok v => collect_fields rest data (dict_set return_hash field v)
          end
      end
  end.

(** The condition of line 23. *)
Definition no_frontmatter (parts : list string) : bool :=
  (List.length parts <? 3)%nat || negb (strip (nth 0 parts "") =? "").

(** Lines 20 to 41, the body of the [try]. *)
Definition parse_frontmatter_body (file_path : Path)
  (field_list : list string) : Py (option record) :=
  content <- call (read_text w file_path) ;;
  let parts := split YAML_SEPARATOR content in
  if no_frontmatter parts
  then
    print_err ("WARN: Skipping " ++ name file_path ++ ": "
               ++ "No frontmatter found.") ;;;
    ret None
  else
    let frontmatter := nth 1 parts "" in
    data <- call (safe_load w frontmatter) ;;
    return_hash <- call (collect_fields field_list data []) ;;
    if truthy return_hash then ret (Some return_hash) else ret None.

(** Lines 42 to 47: the handler prints and falls through to the final
    [return None]. *)
Definition parse_frontmatter_handler (file_path : Path) (e : Exception)
  : Py (option record) :=
  print_err ("ERROR: file read or missing fields " ++ name file_path
             ++ ": " ++ exc_str e) ;;;
  ret None.

Definition parse_frontmatter (file_path : Path) (field_list : list string)
  : Py (option record) :=
  try_except (parse_frontmatter_body file_path field_list)
             (parse_frontmatter_handler file_path).

(** [p.glob('*.md')]: the entries of [p] itself whose name ends in [.md]. *)
Definition glob_md (p : Path) : list Path :=
  map (joinpath p) (filter (endswith ".md") (iterdir w p)).

(** The loop of lines 51 to 54. *)
Fixpoint parse_dir_loop (files : list Path) (field_list : list string)
  (all_data : list record) : Py (list record) :=
  match files with
  | [] => ret all_data
  | file_path :: rest =>
      data <- parse_frontmatter file_path field_list ;;
      match data with
      | Some r =>
          if truthy r
          then parse_dir_loop rest field_list (all_data ++ [r])%list
          else parse_dir_loop rest field_list all_data
      | None => parse_dir_loop rest field_list all_data
      end
  end.

(** The parameter [file_path] is not read: line 51 takes the directory
    from the global [scanpath] and rebinds [file_path] in the loop. *)
Definition parse_dir (file_path : Path) (field_list : list string)
  : Py (option output) :=
  dir <- load_scanpath ;;
  all_data <- parse_dir_loop (sorted (glob_md dir)) field_list [] ;;
  if negb (truthy all_data)
  then print "No valid Jekyll posts with relevant fields found." ;;;
       ret None
  else ret (Some (ConfigMap all_data)).

(** The script body, after [argparse] has produced [args.directory] (here
    already the [Path]) and [args.fields]. *)
Definition main (directory : Path) (fields : list string) : Py unit :=
  store_scanpath directory ;;;
  if negb (is_dir w directory)
  then print_err ("ERROR: path '" ++ path_str directory
                  ++ "' is not valid dir.") ;;;
       raise (RSystemExit 1)
  else
    out <- parse_dir directory fields ;;
    print (dump w out).

End Script.

(** The exit status of the process. *)
Definition exit_status {A} (o : outcome A) : nat :=
  match o with
  | Returned _ => 0
  | Raised (RSystemExit code) => code
  | Raised (RException _) => 1
  end.

Definition initial_state : state := mkState [] [] None.

(** ** Vocabulary of the statements *)

(** The state after more lines went to the error stream. *)
Definition add_err (st : state) (lines : list string) : state :=
  mkState (stdout st) (stderr st ++ lines)%list (scanpath st).

(** The two diagnostics of [parse_frontmatter]. *)
Definition warn_line (file_path : Path) : string :=
  "WARN: Skipping " ++ name file_path ++ ": " ++ "No frontmatter found.".

Definition error_line (file_path : Path) (e : Exception) : string :=
  "ERROR: file read or missing fields " ++ name file_path ++ ": "
  ++ exc_str e.

(** What one call of [parse_frontmatter] returns and prints, read off a
    run from the initial state. *)
Definition file_record (w : World) (file_path : Path)
  (field_list : list string) : option record :=
  match fst (parse_frontmatter w file_path field_list initial_state) with
  | Returned r => r
  | Raised _ => None
  end.

Definition file_diagnostics (w : World) (file_path : Path)
  (field_list : list string) : list string :=
  stderr (snd (parse_frontmatter w file_path field_list initial_state)).

(** [field in d] for the items of a [dict]. *)
Definition has_key (items : list (pyobj * pyobj)) (field : string) : bool :=
  existsb (is_str field) (map fst items).

(** [field in l] for a list of strings. *)
Definition mem (field : string) (l : list string) : bool :=
  existsb (String.eqb field) l.

(** The elements of [l], each at its first occurrence. *)
Fixpoint first_occurrences (l : list string) : list string :=
  match l with
  | [] => []
  | x :: l' => x :: filter (fun y => negb (y =? x)) (first_occurrences l')
  end.

(** The string keys of a [dict], in its iteration order. *)
Fixpoint str_keys (items : list (pyobj * pyobj)) : list string :=
  match items with
  | [] => []
  | (PStr s, _) :: items' => s :: str_keys items'
  | _ :: items' => str_keys items'
  end.

(** What the loop of [parse_dir] appends for one returned value: line 53
    tests its truth value. *)
Definition appended (data : option record) : list record :=
  match data with
  | Some r => if truthy r then [r] else []
  | None => []
  end.

(** ** Sample worlds *)

(** A directory given by a table: the listing in the order of the table,
    a text for each name, and a decoder given by its values on the
    frontmatter segments of these texts.  A name outside the table does
    not open; a segment outside the table does not decode. *)
Fixpoint assoc {A} (k : string) (l : list (string * A)) : option A :=
  match l with
  | [] => None
  | (k', v) :: l' => if k' =? k then Some v else assoc k l'
  end.

Definition table_world (files : list (string * string))
  (decoder : list (string * pyobj)) : World :=
  mkWorld
    (fun p =>
       match assoc (name p) files with
       | Some text => Ok text
       | None => Err (mkException "FileNotFoundError"
                        "[Errno 2] No such file or directory")
       end)
    (fun s =>
       match assoc s decoder with
       | Some o => Ok o
       | None => Err (mkException "ScannerError" "could not decode")
       end)
    (fun _ => map fst files)
    (fun _ => true)
    (fun o =>
       match o with
       | None => "null" ++ nl ++ "..." ++ nl
       | Some _ => "config_map:" ++ nl
       end).

(** A text with the frontmatter [fm] and the body [body]. *)
Definition post (fm body : string) : string :=
  "---" ++ nl ++ fm ++ "---" ++ nl ++ body.

Definition sample_files : list (string * string) :=
  [ ("b.md", post ("identifier: x2" ++ nl) "text");
    ("c.md", "no frontmatter here");
    ("a.md", post ("identifier: x1" ++ nl ++ "commonName: Org A" ++ nl)
                  ("body" ++ nl ++ "---" ++ nl ++ "more"));
    ("notes.txt", post ("identifier: x3" ++ nl) "");
    ("s.md", post ("hello" ++ nl) "");
    ("n.md", post ("# nothing" ++ nl) "");
    ("u.md", post ("a: [" ++ nl) "") ].

Definition sample_decoder : list (string * pyobj) :=
  [ (nl ++ "identifier: x2" ++ nl, PDict [(PStr "identifier", PStr "x2")]);
    (nl ++ "identifier: x1" ++ nl ++ "commonName: Org A" ++ nl,
     PDict [(PStr "identifier", PStr "x1"); (PStr "commonName", PStr "Org A")]);
    (nl ++ "identifier: x3" ++ nl, PDict [(PStr "identifier", PStr "x3")]);
    (nl ++ "hello" ++ nl, PStr "hello");
    (nl ++ "# nothing" ++ nl, PNone) ].

Definition sample_world : World := table_world sample_files sample_decoder.

(** A directory without any [.md] entry. *)
Definition bare_world : World :=
  table_world [("notes.txt", "plain text")] [].

(** Two directories over the sample files: [docs] lists them, every other
    directory is empty. *)
Definition two_dirs_world : World :=
  mkWorld (read_text sample_world) (safe_load sample_world)
    (fun p =>
       if list_eq_dec string_dec p ["docs"] then map fst sample_files else [])
    (is_dir sample_world) (dump sample_world).

(** The text of line 57. *)
Definition notice : string :=
  "No valid Jekyll posts with relevant fields found.".

(** The sample files under a path that is not a directory. *)
Definition no_dir_world : World :=
  mkWorld (read_text sample_world) (safe_load sample_world)
    (iterdir sample_world) (fun _ => false) (dump sample_world).

(** The sample files with another text under the name [notes.txt]. *)
Definition other_notes_world : World :=
  mkWorld
    (fun p =>
       if name p =? "notes.txt" then Ok "changed" else read_text sample_world p)
    (safe_load sample_world) (iterdir sample_world) (is_dir sample_world)
    (dump sample_world).

(** The split as the specification words it: the text is cut at the
    lines that consist of [---], and a segment is what stands between
    two such lines.  [group_lines cur ls] closes the group [cur], kept
    in reverse, at every line [---] of [ls]. *)
Fixpoint group_lines (cur : list string) (ls : list string)
  : list (list string) :=
  match ls with
  | [] => [rev cur]
  | l :: ls' =>
      if l =? YAML_SEPARATOR
      then rev cur :: group_lines [] ls'
      else group_lines (l :: cur) ls'
  end.

Definition spec_split_on_delimiter_lines (content : string) : list string :=
  map (join nl) (group_lines [] (split nl content)).

(** Two files in which three hyphens stand inside a line: a rule of six
    hyphens, and a frontmatter with a value that holds [---].  The
    decoder is given on the segments that [parse_frontmatter] cuts out
    of them. *)
Definition rule_world : World :=
  table_world
    [ ("r.md", "------" ++ nl);
      ("t.md", post ("title: a---b" ++ nl) "body") ]
    [ ("", PNone);
      (nl ++ "title: a", PDict [(PStr "title", PStr "a")]) ].

(** * Properties *)

Example split_demo :
  split "---" (post ("a: 1" ++ nl) "body")
  = [""; nl ++ "a: 1" ++ nl; nl ++ "body"].
Proof. reflexivity. Qed.

Example split_overlap : split "---" "a----b" = ["a"; "-b"].
Proof. reflexivity. Qed.

Example split_none : split "---" "no separator" = ["no separator"].
Proof. reflexivity. Qed.

Example split_empty : split "---" "" = [""].
Proof. reflexivity. Qed.

Example strip_demo : strip (nl ++ "  a b " ++ nl) = "a b".
Proof. reflexivity. Qed.

Example sample_run :
  main sample_world ["docs"] ["identifier"; "commonName"] initial_state
  = (Returned tt,
     mkState ["config_map:" ++ nl]
             ["WARN: Skipping c.md: No frontmatter found.";
              "ERROR: file read or missing fields n.md: argument of type 'NoneType' is not iterable";
              "ERROR: file read or missing fields u.md: could not decode"]
             (Some ["docs"])).
Proof. reflexivity. Qed.

(** ** Strings *)

Lemma rstrip_empty (s : string) : rstrip s = "" <-> blank s = true.
Proof.
  induction s as [|c s IH]; simpl.
  - tauto.
  - destruct (rstrip s) eqn:R.
    + destruct (isspace c); simpl.
      * split; intros _; [apply IH|]; reflexivity.
      * split; discriminate.
    + split; [discriminate|].
      intros H. apply andb_true_iff in H as [_ H].
      apply IH in H. discriminate.
Qed.

Lemma blank_lstrip (s : string) : blank (lstrip s) = blank s.
Proof.
  induction s as [|c s IH]; simpl; [reflexivity|].
  destruct (isspace c) eqn:C; simpl; [exact IH|].
  now rewrite C.
Qed.

(** [s.strip() == ''] exactly when [s] holds only whitespace. *)
Lemma strip_empty (s : string) : strip s = "" <-> blank s = true.
Proof.
  unfold strip. rewrite rstrip_empty, blank_lstrip. tauto.
Qed.

Lemma strip_eqb_blank (s : string) : (strip s =? "") = blank s.
Proof.
  destruct (blank s) eqn:B.
  - apply String.eqb_eq, strip_empty, B.
  - apply String.eqb_neq. intros H. apply strip_empty in H. congruence.
Qed.

Lemma prefix_empty (s : string) : prefix "" s = true.
Proof. destruct s; reflexivity. Qed.

Lemma prefix_cons_same (a : ascii) (s1 s2 : string) :
  prefix (String a s1) (String a s2) = prefix s1 s2.
Proof. cbn [prefix]. destruct (ascii_dec a a); [reflexivity|congruence]. Qed.

Lemma prefix_cons_other (a b : ascii) (s1 s2 : string) :
  a <> b -> prefix (String a s1) (String b s2) = false.
Proof.
  intros N. cbn [prefix]. destruct (ascii_dec a b); [congruence|reflexivity].
Qed.

(** At a separator the scan closes the segment and resumes behind it. *)
Lemma split_from_separator (t : string) :
  split_from YAML_SEPARATOR 0 (YAML_SEPARATOR ++ t)
  = ("", let (h, r) := split_from YAML_SEPARATOR 0 t in h :: r).
Proof.
  change (YAML_SEPARATOR ++ t) with (String "-" (String "-" (String "-" t))).
  cbn [split_from].
  unfold YAML_SEPARATOR at 1.
  rewrite !prefix_cons_same, prefix_empty.
  reflexivity.
Qed.

Lemma split_from_skip (sep u s : string) :
  split_from sep (String.length u) (u ++ s) = split_from sep 0 s.
Proof.
  induction u as [|c u IH]; [reflexivity|]. cbn [String.length append].
  cbn [split_from]. exact IH.
Qed.

Lemma prefix_append (a s : string) :
  prefix a s = true -> exists r, s = a ++ r.
Proof.
  revert s. induction a as [|c a IH]; intros s P.
  - now exists s.
  - destruct s as [|d s]; [discriminate P|]. cbn [prefix] in P.
    destruct (ascii_dec c d) as [<-|]; [|discriminate P].
    destruct (IH s P) as (r & ->). now exists r.
Qed.

Lemma length_append (a b : string) :
  String.length (a ++ b) = (String.length a + String.length b)%nat.
Proof. induction a as [|c a IH]; cbn; [reflexivity|now rewrite IH]. Qed.

Lemma concat_cons (sep : string) (c : ascii) (h : string)
  (t : list string) :
  String.concat sep (String c h :: t) = String c (String.concat sep (h :: t)).
Proof. destruct t; reflexivity. Qed.

(** Joining the segments with the separator gives the text back. *)
Lemma join_split (sep s : string) :
  sep <> "" -> join sep (split sep s) = s.
Proof.
  intros N. unfold join, split.
  remember (String.length s) as n eqn:L.
  assert (B : (String.length s <= n)%nat) by lia. clear L.
  revert s B. induction n as [|n IH]; intros s B.
  - destruct s; [reflexivity|cbn in B; lia].
  - destruct s as [|c s]; [reflexivity|]. cbn [split_from].
    destruct (prefix sep (String c s)) eqn:P.
    + destruct (prefix_append _ _ P) as (r & E).
      destruct sep as [|d sep]; [congruence|].
      injection E as <- ->.
      cbn [String.length Nat.sub]. rewrite Nat.sub_0_r, split_from_skip.
      assert (Br : (String.length r <= n)%nat).
      { cbn in B. rewrite length_append in B. lia. }
      specialize (IH r Br).
      destruct (split_from (String c sep) 0 r) as [h t].
      change (String.concat (String c sep) ("" :: h :: t))
        with ("" ++ String c sep ++ String.concat (String c sep) (h :: t)).
      now rewrite IH.
    + assert (Bs : (String.length s <= n)%nat) by (cbn in B; lia).
      specialize (IH s Bs).
      destruct (split_from sep 0 s) as [h t].
      now rewrite concat_cons, IH.
Qed.

(** A separator never starts on a whitespace character, so a blank head
    is cut off whole at the first separator. *)
Lemma split_blank_head (p0 t : string) :
  blank p0 = true ->
  split YAML_SEPARATOR (p0 ++ YAML_SEPARATOR ++ t)
  = p0 :: split YAML_SEPARATOR t.
Proof.
  unfold split. induction p0 as [|c p0 IH]; intros B.
  - change ("" ++ YAML_SEPARATOR ++ t) with (YAML_SEPARATOR ++ t).
    rewrite split_from_separator. reflexivity.
  - simpl in B. apply andb_true_iff in B as [C B].
    specialize (IH B).
    change ((String c p0 ++ YAML_SEPARATOR ++ t))
      with (String c (p0 ++ YAML_SEPARATOR ++ t)).
    cbn [split_from].
    unfold YAML_SEPARATOR at 1.
    rewrite prefix_cons_other by (intros <-; discriminate C).
    fold YAML_SEPARATOR.
    destruct (split_from YAML_SEPARATOR 0 (p0 ++ YAML_SEPARATOR ++ t)).
    destruct (split_from YAML_SEPARATOR 0 t).
    now inversion IH.
Qed.

(** ** One call of [parse_frontmatter], case by case *)

Section Cases.

Variable w : World.
Variables (file_path : Path) (field_list : list string) (st : state).

Lemma print_err_run (line : string) :
  print_err line st = (Returned tt, add_err st [line]).
Proof. reflexivity. Qed.

(** The file does not open or does not decode as UTF-8. *)
Lemma parse_frontmatter_unreadable (e : Exception) :
  read_text w file_path = Err e ->
  parse_frontmatter w file_path field_list st
  = (Returned None, add_err st [error_line file_path e]).
Proof.
  intros R. unfold parse_frontmatter, try_except, parse_frontmatter_body, bind.
  rewrite R. reflexivity.
Qed.

(** Line 23 holds. *)
Lemma parse_frontmatter_warns (content : string) :
  read_text w file_path = Ok content ->
  no_frontmatter (split YAML_SEPARATOR content) = true ->
  parse_frontmatter w file_path field_list st
  = (Returned None, add_err st [warn_line file_path]).
Proof.
  intros R G. unfold parse_frontmatter, try_except, parse_frontmatter_body, bind.
  rewrite R. cbn [call ret]. rewrite G. reflexivity.
Qed.

(** The decoder raises. *)
Lemma parse_frontmatter_undecodable (content : string) (e : Exception) :
  read_text w file_path = Ok content ->
  no_frontmatter (split YAML_SEPARATOR content) = false ->
  safe_load w (nth 1 (split YAML_SEPARATOR content) "") = Err e ->
  parse_frontmatter w file_path field_list st
  = (Returned None, add_err st [error_line file_path e]).
Proof.
  intros R G D. unfold parse_frontmatter, try_except, parse_frontmatter_body, bind.
  rewrite R. cbn [call ret]. rewrite G, D. reflexivity.
Qed.

(** The decoder returns [data]: the loop decides. *)
Lemma parse_frontmatter_decoded (content : string) (data : pyobj) :
  read_text w file_path = Ok content ->
  no_frontmatter (split YAML_SEPARATOR content) = false ->
  safe_load w (nth 1 (split YAML_SEPARATOR content) "") = Ok data ->
  parse_frontmatter w file_path field_list st
  = match collect_fields field_list data [] with
    | Ok return_hash =>
        (Returned (if truthy return_hash then Some return_hash else None), st)
    | Err e => (Returned None, add_err st [error_line file_path e])
    end.
Proof.
  intros R G D. unfold parse_frontmatter, try_except, parse_frontmatter_body, bind.
  rewrite R. cbn [call ret]. rewrite G, D. cbn [call ret].
  destruct (collect_fields field_list data []) as [r|e]; cbn.
  - destruct (truthy r); reflexivity.
  - reflexivity.
Qed.

End Cases.

(** ** The state is only ever extended on the error stream *)

Lemma add_err_nil (st : state) : add_err st [] = st.
Proof. destruct st. unfold add_err. cbn. now rewrite app_nil_r. Qed.

Lemma add_err_app (st : state) (a b : list string) :
  add_err (add_err st a) b = add_err st (a ++ b)%list.
Proof. unfold add_err. cbn. now rewrite app_assoc. Qed.

(** A call of [parse_frontmatter] returns, in every state, what it
    returns from the initial state, and adds the same lines. *)
Lemma parse_frontmatter_frame (w : World) (file_path : Path)
  (field_list : list string) (st : state) :
  parse_frontmatter w file_path field_list st
  = (Returned (file_record w file_path field_list),
     add_err st (file_diagnostics w file_path field_list)).
Proof.
  unfold file_record, file_diagnostics.
  destruct (read_text w file_path) as [content|e] eqn:R.
  - destruct (no_frontmatter (split YAML_SEPARATOR content)) eqn:G.
    + rewrite !(parse_frontmatter_warns w _ _ _ content R G). reflexivity.
    + destruct (safe_load w (nth 1 (split YAML_SEPARATOR content) ""))
        as [data|e] eqn:D.
      * rewrite !(parse_frontmatter_decoded w _ _ _ content data R G D).
        destruct (collect_fields field_list data []); cbn;
          [now rewrite add_err_nil | reflexivity].
      * rewrite !(parse_frontmatter_undecodable w _ _ _ content e R G D).
        reflexivity.
  - rewrite !(parse_frontmatter_unreadable w _ _ _ e R). reflexivity.
Qed.

Lemma parse_dir_loop_run (w : World) (field_list : list string)
  (files : list Path) :
  forall (all_data : list record) (st : state),
    parse_dir_loop w files field_list all_data st
    = (Returned
         (all_data
          ++ flat_map (fun p => appended (file_record w p field_list)) files)%list,
       add_err st
         (flat_map (fun p => file_diagnostics w p field_list) files)).
Proof.
  induction files as [|p files IH]; intros all_data st.
  - cbn. now rewrite app_nil_r, add_err_nil.
  - cbn [parse_dir_loop flat_map]. unfold bind.
    rewrite parse_frontmatter_frame.
    rewrite <- add_err_app, app_assoc.
    destruct (file_record w p field_list) as [r|]; cbn [appended].
    + destruct (truthy r); rewrite IH; [reflexivity|].
      now rewrite app_nil_r.
    + rewrite IH. now rewrite app_nil_r.
Qed.

(** What [parse_dir] does once the global [scanpath] is bound. *)
Lemma parse_dir_run (w : World) (file_path dir : Path)
  (field_list : list string) (st : state) :
  scanpath st = Some dir ->
  let files := sorted (glob_md w dir) in
  let all_data :=
    flat_map (fun p => appended (file_record w p field_list)) files in
  let st' :=
    add_err st (flat_map (fun p => file_diagnostics w p field_list) files) in
  parse_dir w file_path field_list st
  = if truthy all_data
    then (Returned (Some (ConfigMap all_data)), st')
    else (Returned None,
          mkState (stdout st'
                   ++ ["No valid Jekyll posts with relevant fields found."])%list
                  (stderr st') (scanpath st')).
Proof.
  intros S files all_data st'. unfold parse_dir, bind, load_scanpath.
  rewrite S. rewrite parse_dir_loop_run. cbn [app].
  fold files. fold all_data. fold st'.
  destruct (truthy all_data); reflexivity.
Qed.

(** C9. No failure of one file leaves the call made for that file:
    whatever the file system and the decoder do, [parse_frontmatter]
    returns and never raises; the loop of [parse_dir] returns for every
    list of files, its result and its diagnostics made of the contribution
    of each file in turn; and [parse_dir] returns whenever [scanpath] is
    bound. *)
Theorem per_file_failures_are_contained (w : World)
  (field_list : list string) :
  (forall file_path st, exists data lines,
      parse_frontmatter w file_path field_list st
      = (Returned data, add_err st lines))
  /\ (forall files all_data st,
        parse_dir_loop w files field_list all_data st
        = (Returned
             (all_data
              ++ flat_map (fun p => appended (file_record w p field_list))
                   files)%list,
           add_err st
             (flat_map (fun p => file_diagnostics w p field_list) files)))
  /\ (forall file_path dir out err, exists result st',
        parse_dir w file_path field_list (mkState out err (Some dir))
        = (Returned result, st')).
Proof.
  split; [|split].
  - intros file_path st. eexists _, _. apply parse_frontmatter_frame.
  - intros files all_data st. apply parse_dir_loop_run.
  - intros file_path dir out err.
    pose proof (parse_dir_run w file_path dir field_list
                  (mkState out err (Some dir)) eq_refl) as H.
    cbv zeta in H. rewrite H.
    match goal with |- context [if ?b then _ else _] => destruct b end;
      eexists _, _; reflexivity.
Qed.

(** A file that does not open and a file that does not decode do not
    keep the file after them from being read. *)
Example scan_goes_on_after_failures :
  fst (parse_dir_loop sample_world
         [["docs"; "missing.md"]; ["docs"; "u.md"]; ["docs"; "b.md"]]
         ["identifier"] [] initial_state)
  = Returned [[("identifier", PStr "x2")]].
Proof. reflexivity. Qed.

(** ** Where the text is cut *)

Lemma append_assoc (a b c : string) : (a ++ b) ++ c = a ++ b ++ c.
Proof. induction a as [|x a IH]; cbn; [reflexivity|now rewrite IH]. Qed.

Lemma prefix_of_empty (sep : string) : sep <> "" -> prefix sep "" = false.
Proof. destruct sep; [congruence|reflexivity]. Qed.

(** A test for [a] at the start of a text reads no further than [a] is
    long. *)
Lemma prefix_append_long (a x y : string) :
  (String.length a <= String.length x)%nat ->
  prefix a (x ++ y) = prefix a x.
Proof.
  revert x. induction a as [|c a IH]; intros x L.
  - now rewrite !prefix_empty.
  - destruct x as [|d x]; [cbn in L; lia|].
    cbn [append prefix]. destruct (ascii_dec c d); [|reflexivity].
    apply IH. cbn in L. lia.
Qed.

Lemma prefix_append_true (a x y : string) :
  prefix a x = true -> prefix a (x ++ y) = true.
Proof.
  revert x. induction a as [|c a IH]; intros x P.
  - apply prefix_empty.
  - destruct x as [|d x]; [discriminate P|].
    cbn [append prefix] in *. destruct (ascii_dec c d); [|discriminate P].
    now apply IH.
Qed.

(** The segment under construction is a beginning of the text. *)
Lemma split_from_head_begins (sep s : string) :
  exists r, s = fst (split_from sep 0 s) ++ r.
Proof.
  induction s as [|c s (r & E)]; [now exists ""|]. cbn [split_from].
  destruct (prefix sep (String c s)).
  - now exists (String c s).
  - destruct (split_from sep 0 s) as [h t]. cbn [fst] in *.
    exists r. cbn. now rewrite <- E.
Qed.

Lemma split_from_head_clean (sep s : string) :
  sep <> "" -> contains sep (fst (split_from sep 0 s)) = false.
Proof.
  intros N. induction s as [|c s IH]; cbn [split_from].
  - cbn [fst contains]. now rewrite prefix_of_empty.
  - destruct (prefix sep (String c s)) eqn:P.
    + cbn [fst contains]. now rewrite prefix_of_empty.
    + destruct (split_from_head_begins sep s) as (r & E).
      destruct (split_from sep 0 s) as [h t]. cbn [fst] in *.
      cbn [contains]. rewrite IH, orb_false_r.
      destruct (prefix sep (String c h)) eqn:Q; [|reflexivity].
      apply (prefix_append_true _ _ r) in Q. cbn [append] in Q.
      rewrite <- E in Q. congruence.
Qed.

Lemma split_from_tail_clean (sep : string) :
  sep <> "" ->
  forall n s, (String.length s <= n)%nat ->
    Forall (fun seg => contains sep seg = false) (snd (split_from sep 0 s)).
Proof.
  intros N. induction n as [|n IH]; intros s B.
  - destruct s; [constructor|cbn in B; lia].
  - destruct s as [|c s]; [constructor|]. cbn [split_from].
    destruct (prefix sep (String c s)) eqn:P.
    + destruct (prefix_append _ _ P) as (r & E).
      destruct sep as [|d sep]; [congruence|].
      injection E as <- ->.
      cbn [String.length Nat.sub]. rewrite Nat.sub_0_r, split_from_skip.
      assert (Br : (String.length r <= n)%nat).
      { cbn in B. rewrite length_append in B. lia. }
      pose proof (IH r Br) as T.
      pose proof (split_from_head_clean (String c sep) r N) as H.
      destruct (split_from (String c sep) 0 r) as [h t]. cbn [fst snd] in *.
      now constructor.
    + assert (Bs : (String.length s <= n)%nat) by (cbn in B; lia).
      pose proof (IH s Bs) as T.
      destruct (split_from sep 0 s) as [h t]. exact T.
Qed.

(** No segment of the split holds the separator. *)
Lemma split_segments_clean (content : string) :
  Forall (fun seg => contains YAML_SEPARATOR seg = false)
    (split YAML_SEPARATOR content).
Proof.
  assert (N : YAML_SEPARATOR <> "") by discriminate.
  unfold split.
  pose proof (split_from_head_clean YAML_SEPARATOR content N) as H.
  pose proof (split_from_tail_clean YAML_SEPARATOR N _ content (le_n _)) as T.
  destruct (split_from YAML_SEPARATOR 0 content) as [h t].
  now constructor.
Qed.

(** ** The frontmatter test of line 23 *)

Lemma no_frontmatter_true (parts : list string) :
  no_frontmatter parts = true
  <-> (List.length parts < 3)%nat \/ strip (nth 0 parts "") <> "".
Proof.
  unfold no_frontmatter. rewrite orb_true_iff, Nat.ltb_lt, negb_true_iff.
  rewrite String.eqb_neq. tauto.
Qed.

Lemma no_frontmatter_false (parts : list string) :
  no_frontmatter parts = false
  <-> ~ ((List.length parts < 3)%nat \/ strip (nth 0 parts "") <> "").
Proof.
  rewrite <- no_frontmatter_true. destruct (no_frontmatter parts); split;
    congruence.
Qed.

(** C4, as stated, fails: the cut is not at the lines [---] but at every
    three hyphens.  A file that is one rule of six hyphens has no line
    [---], hence one segment in the words of the claim, which asks for
    the warning; line 22 cuts it into three segments, the test of line
    23 passes, the empty second segment decodes to [None] and the call
    prints a line that starts with [ERROR:].  And a frontmatter value
    that holds [---] ends the frontmatter: what is decoded is the text
    before it, not the text up to the next line [---]. *)
Lemma delimiter_line_counterexample :
  spec_split_on_delimiter_lines ("------" ++ nl) = ["------" ++ nl]
  /\ split YAML_SEPARATOR ("------" ++ nl) = [""; ""; nl]
  /\ parse_frontmatter rule_world ["docs"; "r.md"] ["title"] initial_state
     = (Returned None,
        add_err initial_state
          [error_line ["docs"; "r.md"]
             (TypeError "argument of type 'NoneType' is not iterable")])
  /\ prefix "WARN:"
       (error_line ["docs"; "r.md"]
          (TypeError "argument of type 'NoneType' is not iterable"))
     = false
  /\ spec_split_on_delimiter_lines (post ("title: a---b" ++ nl) "body")
     = [""; "title: a---b"; "body"]
  /\ split YAML_SEPARATOR (post ("title: a---b" ++ nl) "body")
     = [""; nl ++ "title: a"; "b" ++ nl; nl ++ "body"]
  /\ parse_frontmatter rule_world ["docs"; "t.md"] ["title"] initial_state
     = (Returned (Some [("title", PStr "a")]), initial_state).
Proof. repeat split. Qed.

(** C4, amended.  The text is cut at every occurrence of the three
    hyphens [---], on a line of their own or not.  With fewer than three
    segments, or a first segment that is not blank, the call prints one
    line that starts with [WARN:] and returns [None].  Otherwise the
    outcome is fixed by the second segment alone: the first segment was
    only tested, and no later segment is read.  The cut is not capped:
    behind a blank head the whole remainder is split again, and no
    segment is left with three hyphens in it. *)
Theorem frontmatter_guard_and_segments (w : World) (file_path : Path)
  (field_list : list string) (st : state) (content : string) :
  read_text w file_path = Ok content ->
  let parts := split YAML_SEPARATOR content in
  ((List.length parts < 3)%nat \/ strip (nth 0 parts "") <> "" ->
   parse_frontmatter w file_path field_list st
   = (Returned None, add_err st [warn_line file_path])
   /\ prefix "WARN:" (warn_line file_path) = true)
  /\ (~ ((List.length parts < 3)%nat \/ strip (nth 0 parts "") <> "") ->
      parse_frontmatter w file_path field_list st
      = match safe_load w (nth 1 parts "") with
        | Err e => (Returned None, add_err st [error_line file_path e])
        | Ok data =>
            match collect_fields field_list data [] with
            | Ok return_hash =>
                (Returned (if truthy return_hash then Some return_hash
                           else None), st)
            | Err e => (Returned None, add_err st [error_line file_path e])
            end
        end)
  /\ (forall head rest,
        blank head = true ->
        content = head ++ YAML_SEPARATOR ++ rest ->
        parts = head :: split YAML_SEPARATOR rest)
  /\ Forall (fun seg => contains YAML_SEPARATOR seg = false) parts.
Proof.
  intros R parts. split; [|split; [|split]].
  - intros G. apply no_frontmatter_true in G. split.
    + exact (parse_frontmatter_warns w _ _ _ content R G).
    + reflexivity.
  - intros G. apply no_frontmatter_false in G.
    destruct (safe_load w (nth 1 parts "")) as [data|e] eqn:D.
    + exact (parse_frontmatter_decoded w _ _ _ content data R G D).
    + exact (parse_frontmatter_undecodable w _ _ _ content e R G D).
  - intros head rest B ->. apply split_blank_head, B.
  - apply split_segments_clean.
Qed.

Lemma frontmatter_guard_and_segments_witness :
  read_text sample_world ["docs"; "a.md"]
  = Ok (post ("identifier: x1" ++ nl ++ "commonName: Org A" ++ nl)
             ("body" ++ nl ++ "---" ++ nl ++ "more"))
  /\ List.length
       (split YAML_SEPARATOR
          (post ("identifier: x1" ++ nl ++ "commonName: Org A" ++ nl)
                ("body" ++ nl ++ "---" ++ nl ++ "more"))) = 4%nat
  /\ parse_frontmatter sample_world ["docs"; "a.md"] ["identifier"]
       initial_state
     = (Returned (Some [("identifier", PStr "x1")]), initial_state).
Proof.
  split; [reflexivity|]. split; [reflexivity|].
  destruct (frontmatter_guard_and_segments sample_world ["docs"; "a.md"]
              ["identifier"] initial_state _ eq_refl) as (_ & H & _).
  rewrite H.
  - reflexivity.
  - intros [L|S]; [cbn in L; lia | apply S; reflexivity].
Defined.

(** Two texts that pass the test and share their second segment give the
    same outcome, whatever follows the second separator. *)
Corollary later_segments_ignored (w : World) (p q : Path)
  (field_list : list string) (st : state) (a b : string) :
  name p = name q ->
  read_text w p = Ok a -> read_text w q = Ok b ->
  no_frontmatter (split YAML_SEPARATOR a) = false ->
  no_frontmatter (split YAML_SEPARATOR b) = false ->
  nth 1 (split YAML_SEPARATOR a) "" = nth 1 (split YAML_SEPARATOR b) "" ->
  parse_frontmatter w p field_list st = parse_frontmatter w q field_list st.
Proof.
  intros N Ra Rb Ga Gb E. unfold error_line.
  destruct (safe_load w (nth 1 (split YAML_SEPARATOR a) "")) as [data|e] eqn:D.
  - rewrite (parse_frontmatter_decoded w p _ _ a data Ra Ga D).
    rewrite E in D.
    rewrite (parse_frontmatter_decoded w q _ _ b data Rb Gb D).
    unfold error_line. now rewrite N.
  - rewrite (parse_frontmatter_undecodable w p _ _ a e Ra Ga D).
    rewrite E in D.
    rewrite (parse_frontmatter_undecodable w q _ _ b e Rb Gb D).
    unfold error_line. now rewrite N.
Qed.

(** ** The loop over the requested fields, on a mapping *)

Lemma mem_true (k : string) (l : list string) : mem k l = true <-> In k l.
Proof.
  unfold mem. rewrite existsb_exists. split.
  - intros (x & I & E). apply String.eqb_eq in E. now subst.
  - intros I. exists k. split; [exact I|apply String.eqb_refl].
Qed.

Lemma has_key_dict_get (items : list (pyobj * pyobj)) (field : string) :
  has_key items field = match dict_get items field with
                        | Some _ => true
                        | None => false
                        end.
Proof.
  unfold has_key. induction items as [|[k v] items IH]; cbn; [reflexivity|].
  destruct (is_str field k); [reflexivity|exact IH].
Qed.

Lemma lookup_dict_set (d : record) (f k : string) (v : pyobj) :
  lookup k (dict_set d f v) = if f =? k then Some v else lookup k d.
Proof.
  induction d as [|[k' v'] d IH]; cbn; [reflexivity|].
  destruct (k' =? f) eqn:E; cbn.
  - apply String.eqb_eq in E. subst k'.
    destruct (f =? k); reflexivity.
  - rewrite IH. destruct (f =? k) eqn:F; [|reflexivity].
    apply String.eqb_eq in F. subst k. now rewrite E.
Qed.

Lemma keys_dict_set (d : record) (f : string) (v : pyobj) :
  map fst (dict_set d f v)
  = if mem f (map fst d) then map fst d else (map fst d ++ [f])%list.
Proof.
  unfold mem. induction d as [|[k' v'] d IH]; cbn; [reflexivity|].
  rewrite (String.eqb_sym f k').
  destruct (k' =? f); cbn; [reflexivity|].
  rewrite IH. destruct (existsb (String.eqb f) (map fst d)); reflexivity.
Qed.

Lemma filter_twice {A} (f g : A -> bool) (l : list A) :
  filter f (filter g l) = filter (fun x => g x && f x) l.
Proof.
  induction l as [|x l IH]; cbn; [reflexivity|].
  destruct (g x); cbn; [destruct (f x)|]; now rewrite IH.
Qed.

(** On a mapping neither the membership test nor the subscription
    raises; the loop ends with a dictionary whose entries and whose key
    order are the following. *)
Lemma collect_fields_mapping (items : list (pyobj * pyobj))
  (field_list : list string) :
  forall return_hash, exists r,
    collect_fields field_list (PDict items) return_hash = Ok r
    /\ (forall k,
          lookup k r
          = if mem k field_list
            then match dict_get items k with
                 | Some v => Some v
                 | None => lookup k return_hash
                 end
            else lookup k return_hash)
    /\ map fst r
       = (map fst return_hash
          ++ filter (fun f => negb (mem f (map fst return_hash)))
               (first_occurrences (filter (has_key items) field_list)))%list.
Proof.
  induction field_list as [|f rest IH]; intros acc.
  - exists acc. cbn. now rewrite app_nil_r.
  - cbn [collect_fields py_contains py_getitem filter].
    fold (has_key items f). rewrite has_key_dict_get.
    destruct (dict_get items f) as [v|] eqn:G.
    + destruct (IH (dict_set acc f v)) as (r & E & L & K).
      exists r. split; [exact E|]. split.
      * intros k. rewrite L, lookup_dict_set. unfold mem. cbn [existsb].
        rewrite (String.eqb_sym k f).
        destruct (f =? k) eqn:F; cbn.
        -- apply String.eqb_eq in F. subst k. rewrite G.
           destruct (existsb (String.eqb f) rest); reflexivity.
        -- reflexivity.
      * rewrite K, keys_dict_set. cbn [first_occurrences filter].
        destruct (mem f (map fst acc)) eqn:M; cbn [negb].
        -- f_equal. rewrite filter_twice.
           apply filter_ext. intros y.
           destruct (y =? f) eqn:Y; cbn; [|reflexivity].
           apply String.eqb_eq in Y. subst y. now rewrite M.
        -- rewrite <- app_assoc. cbn [app].
           do 2 f_equal. rewrite filter_twice. apply filter_ext.
           intros y. unfold mem. rewrite existsb_app. cbn.
           rewrite orb_false_r, negb_orb, (String.eqb_sym y f).
           apply andb_comm.
    + destruct (IH acc) as (r & E & L & K).
      exists r. split; [exact E|]. split; [|exact K].
      intros k. rewrite L. unfold mem. cbn [existsb].
      destruct (k =? f) eqn:F; cbn; [|reflexivity].
      apply String.eqb_eq in F. subst k. rewrite G.
      destruct (existsb (String.eqb f) rest); reflexivity.
Qed.

Lemma NoDup_first_occurrences (l : list string) :
  NoDup (first_occurrences l).
Proof.
  induction l as [|x l IH]; cbn; constructor.
  - rewrite filter_In. intros [_ N]. now rewrite String.eqb_refl in N.
  - apply NoDup_filter, IH.
Qed.

Lemma first_occurrences_In (x : string) (l : list string) :
  In x (first_occurrences l) <-> In x l.
Proof.
  induction l as [|y l IH]; cbn; [tauto|].
  rewrite filter_In, IH.
  destruct (String.eqb_spec x y) as [->|N]; cbn; [tauto|].
  split; [tauto|]. intros [->|I]; [contradiction|tauto].
Qed.

(** A well-formed file whose frontmatter decodes to a mapping: the call
    prints nothing and returns the dictionary of the loop, unless that
    dictionary is empty. *)
Lemma parse_frontmatter_mapping (w : World) (file_path : Path)
  (field_list : list string) (st : state) (content : string)
  (items : list (pyobj * pyobj)) :
  read_text w file_path = Ok content ->
  no_frontmatter (split YAML_SEPARATOR content) = false ->
  safe_load w (nth 1 (split YAML_SEPARATOR content) "") = Ok (PDict items) ->
  exists r,
    parse_frontmatter w file_path field_list st
    = (Returned (if truthy r then Some r else None), st)
    /\ (forall k,
          lookup k r = if mem k field_list then dict_get items k else None)
    /\ map fst r = first_occurrences (filter (has_key items) field_list).
Proof.
  intros R G D.
  destruct (collect_fields_mapping items field_list []) as (r & E & L & K).
  exists r. split; [|split].
  - rewrite (parse_frontmatter_decoded w _ _ _ content _ R G D), E.
    reflexivity.
  - intros k. rewrite L. cbn [lookup].
    destruct (mem k field_list); [|reflexivity].
    destruct (dict_get items k); reflexivity.
  - rewrite K. cbn [map app]. apply filter_true.
Qed.

Lemma well_formed_parts (parts : list string) :
  (3 <= List.length parts)%nat -> strip (nth 0 parts "") = "" ->
  no_frontmatter parts = false.
Proof.
  intros L S. apply no_frontmatter_false. intros [L'|S']; [lia|tauto].
Qed.

(** C1. When the frontmatter of a well-formed file decodes to a mapping
    that holds at least one requested field, the call prints nothing and
    returns a dictionary that is the mapping restricted to the requested
    fields: a requested key of the mapping has the very value the
    decoder gave it, every other key is absent, and no key occurs
    twice. *)
Theorem requested_subset_returned (w : World) (file_path : Path)
  (field_list : list string) (st : state) (content : string)
  (items : list (pyobj * pyobj)) :
  read_text w file_path = Ok content ->
  (3 <= List.length (split YAML_SEPARATOR content))%nat ->
  strip (nth 0 (split YAML_SEPARATOR content) "") = "" ->
  safe_load w (nth 1 (split YAML_SEPARATOR content) "") = Ok (PDict items) ->
  (exists f, In f field_list /\ has_key items f = true) ->
  exists r,
    parse_frontmatter w file_path field_list st = (Returned (Some r), st)
    /\ (forall k,
          lookup k r = if mem k field_list then dict_get items k else None)
    /\ NoDup (map fst r).
Proof.
  intros R L S D (f & I & H).
  destruct (parse_frontmatter_mapping w file_path field_list st content items
              R (well_formed_parts _ L S) D) as (r & E & Lk & K).
  exists r. split; [|split].
  - rewrite E. destruct r as [|kv r]; [|reflexivity].
    specialize (Lk f). apply mem_true in I. rewrite I in Lk.
    rewrite has_key_dict_get in H. cbn in Lk.
    destruct (dict_get items f); discriminate.
  - exact Lk.
  - rewrite K. apply NoDup_first_occurrences.
Qed.

Lemma requested_subset_returned_witness :
  exists r,
    parse_frontmatter sample_world ["docs"; "a.md"] ["commonName"; "license"]
      initial_state
    = (Returned (Some r), initial_state)
    /\ lookup "commonName" r = Some (PStr "Org A")
    /\ lookup "identifier" r = None.
Proof.
  destruct (requested_subset_returned sample_world ["docs"; "a.md"]
              ["commonName"; "license"] initial_state _
              [(PStr "identifier", PStr "x1");
               (PStr "commonName", PStr "Org A")]
              eq_refl)
    as (r & E & L & _).
  - cbn. lia.
  - reflexivity.
  - reflexivity.
  - exists "commonName". split; [left; reflexivity|reflexivity].
  - exists r. split; [exact E|]. split; rewrite L; reflexivity.
Defined.

(** C2, as stated, fails: asked for [commonName] and then [identifier],
    the call on a mapping that lists [identifier] first returns the keys
    as they were asked for, not as the mapping lists them. *)
Lemma source_order_counterexample :
  safe_load sample_world
    (nth 1 (split YAML_SEPARATOR
              (post ("identifier: x1" ++ nl ++ "commonName: Org A" ++ nl)
                    ("body" ++ nl ++ "---" ++ nl ++ "more"))) "")
  = Ok (PDict [(PStr "identifier", PStr "x1");
               (PStr "commonName", PStr "Org A")])
  /\ parse_frontmatter sample_world ["docs"; "a.md"]
       ["commonName"; "identifier"] initial_state
     = (Returned (Some [("commonName", PStr "Org A");
                        ("identifier", PStr "x1")]),
        initial_state)
  /\ filter (fun k => mem k ["commonName"; "identifier"])
       (str_keys [(PStr "identifier", PStr "x1");
                  (PStr "commonName", PStr "Org A")])
     = ["identifier"; "commonName"]
  /\ ["commonName"; "identifier"] <> ["identifier"; "commonName"].
Proof.
  split; [reflexivity|]. split; [reflexivity|]. split; [reflexivity|].
  discriminate.
Qed.

(** C2, amended.  The keys of the returned dictionary stand in the order
    of the request list, each matched name at its first occurrence
    there. *)
Theorem keys_in_request_order (w : World) (file_path : Path)
  (field_list : list string) (st : state) (content : string)
  (items : list (pyobj * pyobj)) :
  read_text w file_path = Ok content ->
  (3 <= List.length (split YAML_SEPARATOR content))%nat ->
  strip (nth 0 (split YAML_SEPARATOR content) "") = "" ->
  safe_load w (nth 1 (split YAML_SEPARATOR content) "") = Ok (PDict items) ->
  (exists f, In f field_list /\ has_key items f = true) ->
  exists r,
    parse_frontmatter w file_path field_list st = (Returned (Some r), st)
    /\ map fst r = first_occurrences (filter (has_key items) field_list).
Proof.
  intros R L S D (f & I & H).
  destruct (parse_frontmatter_mapping w file_path field_list st content items
              R (well_formed_parts _ L S) D) as (r & E & _ & K).
  exists r. split; [|exact K].
  rewrite E. destruct r as [|kv r]; [|reflexivity].
  cbn in K. symmetry in K.
  assert (In f (first_occurrences (filter (has_key items) field_list))) as F
    by (apply first_occurrences_In, filter_In; tauto).
  rewrite K in F. destruct F.
Qed.

Lemma keys_in_request_order_witness :
  exists r,
    parse_frontmatter sample_world ["docs"; "a.md"]
      ["commonName"; "license"; "identifier"; "commonName"] initial_state
    = (Returned (Some r), initial_state)
    /\ map fst r = ["commonName"; "identifier"].
Proof.
  destruct (keys_in_request_order sample_world ["docs"; "a.md"]
              ["commonName"; "license"; "identifier"; "commonName"]
              initial_state _
              [(PStr "identifier", PStr "x1");
               (PStr "commonName", PStr "Org A")]
              eq_refl)
    as (r & E & K).
  - cbn. lia.
  - reflexivity.
  - reflexivity.
  - exists "commonName". split; [left; reflexivity|reflexivity].
  - exists r. split; [exact E|exact K].
Defined.

(** ** Frontmatter that decodes to something else than a mapping *)

Lemma getitem_non_mapping (data : pyobj) (field : string) :
  (forall items, data <> PDict items) ->
  exists e, py_getitem data field = Err e.
Proof.
  intros N. destruct data; cbn; try (eexists; reflexivity).
  now destruct (N items).
Qed.

Lemma collect_fields_all_absent (data : pyobj) (field_list : list string)
  (return_hash : record) :
  (forall f, In f field_list -> py_contains data f = Ok false) ->
  collect_fields field_list data return_hash = Ok return_hash.
Proof.
  induction field_list as [|f rest IH]; intros A; cbn; [reflexivity|].
  rewrite (A f (or_introl eq_refl)). apply IH.
  intros g I. apply A. now right.
Qed.

Lemma collect_fields_non_mapping_raises (data : pyobj)
  (field_list : list string) (return_hash : record) :
  (forall items, data <> PDict items) ->
  (exists f, In f field_list /\ py_contains data f <> Ok false) ->
  exists e, collect_fields field_list data return_hash = Err e.
Proof.
  intros N. induction field_list as [|f rest IH]; intros (g & I & C).
  - destruct I.
  - cbn. destruct (py_contains data f) as [[|]|e] eqn:P.
    + destruct (getitem_non_mapping data f N) as (e & ->). now exists e.
    + apply IH. destruct I as [<-|I]; [congruence|]. now exists g.
    + now exists e.
Qed.

Lemma error_line_prefix (file_path : Path) (e : Exception) :
  prefix "ERROR:" (error_line file_path e) = true
  /\ prefix "WARN:" (error_line file_path e) = false.
Proof. split; reflexivity. Qed.

(** C3, as stated, fails: a frontmatter that is the plain scalar [hello]
    decodes to a string; no requested name occurs in it, so the loop ends
    with an empty dictionary and the call returns [None] without printing
    anything. *)
Lemma silent_non_mapping_counterexample :
  safe_load sample_world
    (nth 1 (split YAML_SEPARATOR (post ("hello" ++ nl) "")) "")
  = Ok (PStr "hello")
  /\ parse_frontmatter sample_world ["docs"; "s.md"] ["identifier"]
       initial_state
     = (Returned None, initial_state)
  /\ stderr (snd (parse_frontmatter sample_world ["docs"; "s.md"]
                    ["identifier"] initial_state)) = [].
Proof. repeat split. Qed.

(** C3, amended.  When the frontmatter decodes to a value that is not a
    mapping the call returns [None].  It prints one line, which starts
    with [ERROR:], when for some requested field the test [field in data]
    raises or holds (where it holds, the subscription raises); it prints
    nothing when the test is false for every requested field. *)
Theorem non_mapping_returns_none (w : World) (file_path : Path)
  (field_list : list string) (st : state) (content : string) (data : pyobj) :
  read_text w file_path = Ok content ->
  (3 <= List.length (split YAML_SEPARATOR content))%nat ->
  strip (nth 0 (split YAML_SEPARATOR content) "") = "" ->
  safe_load w (nth 1 (split YAML_SEPARATOR content) "") = Ok data ->
  (forall items, data <> PDict items) ->
  exists lines,
    parse_frontmatter w file_path field_list st
    = (Returned None, add_err st lines)
    /\ ((forall f, In f field_list -> py_contains data f = Ok false) ->
        lines = [])
    /\ ((exists f, In f field_list /\ py_contains data f <> Ok false) ->
        exists e, lines = [error_line file_path e]
                  /\ prefix "ERROR:" (error_line file_path e) = true).
Proof.
  intros R L S D N.
  rewrite (parse_frontmatter_decoded w _ _ _ content data R
             (well_formed_parts _ L S) D).
  destruct (collect_fields field_list data []) as [r|e] eqn:C.
  - assert (A : forall f, In f field_list -> py_contains data f = Ok false).
    { intros f I. destruct (py_contains data f) as [[|]|e'] eqn:P;
        [| reflexivity |];
        destruct (collect_fields_non_mapping_raises data field_list [] N)
          as (e & E); try congruence; exists f; split; congruence. }
    rewrite (collect_fields_all_absent _ _ _ A) in C. injection C as <-.
    exists []. rewrite add_err_nil. split; [reflexivity|]. split.
    + reflexivity.
    + intros (f & I & P). now destruct P; apply A.
  - exists [error_line file_path e]. split; [reflexivity|]. split.
    + intros A. rewrite (collect_fields_all_absent _ _ _ A) in C.
      discriminate.
    + intros _. exists e. split; [reflexivity|apply error_line_prefix].
Qed.

Lemma non_mapping_returns_none_witness :
  exists lines,
    parse_frontmatter sample_world ["docs"; "s.md"] ["ell"] initial_state
    = (Returned None, add_err initial_state lines)
    /\ List.length lines = 1%nat.
Proof.
  destruct (non_mapping_returns_none sample_world ["docs"; "s.md"] ["ell"]
              initial_state _ (PStr "hello") eq_refl)
    as (lines & E & _ & H).
  - cbn. lia.
  - reflexivity.
  - reflexivity.
  - discriminate.
  - exists lines. split; [exact E|].
    destruct H as (e & -> & _); [|reflexivity].
    exists "ell". split; [left; reflexivity|discriminate].
Defined.

(** The loop is where [None] is tested: for the empty request, which the
    command line never passes, the call returns [None] and prints
    nothing. *)
Example null_with_empty_request :
  safe_load sample_world
    (nth 1 (split YAML_SEPARATOR (post ("# nothing" ++ nl) "")) "")
  = Ok PNone
  /\ parse_frontmatter sample_world ["docs"; "n.md"] [] initial_state
     = (Returned None, initial_state)
  /\ stderr (snd (parse_frontmatter sample_world ["docs"; "n.md"] []
                    initial_state)) = [].
Proof. repeat split. Qed.

(** C10.  With at least one field requested, as the command line
    ensures, a frontmatter that decodes to [None] makes the first
    membership test raise a [TypeError]; the handler prints one line,
    which starts with [ERROR:] and not with [WARN:], and the call
    returns [None]. *)
Theorem null_frontmatter_is_an_error (w : World) (file_path : Path)
  (field_list : list string) (st : state) (content : string) :
  read_text w file_path = Ok content ->
  (3 <= List.length (split YAML_SEPARATOR content))%nat ->
  strip (nth 0 (split YAML_SEPARATOR content) "") = "" ->
  safe_load w (nth 1 (split YAML_SEPARATOR content) "") = Ok PNone ->
  field_list <> [] ->
  exists e,
    exc_class e = "TypeError"
    /\ parse_frontmatter w file_path field_list st
       = (Returned None, add_err st [error_line file_path e])
    /\ prefix "ERROR:" (error_line file_path e) = true
    /\ prefix "WARN:" (error_line file_path e) = false.
Proof.
  intros R L S D N.
  rewrite (parse_frontmatter_decoded w _ _ _ content PNone R
             (well_formed_parts _ L S) D).
  destruct field_list as [|f rest]; [congruence|].
  cbn [collect_fields py_contains].
  eexists. split; [|split; [reflexivity|apply error_line_prefix]].
  reflexivity.
Qed.

Lemma null_frontmatter_is_an_error_witness :
  exists e,
    parse_frontmatter sample_world ["docs"; "n.md"] ["identifier"]
      initial_state
    = (Returned None,
       add_err initial_state [error_line ["docs"; "n.md"] e]).
Proof.
  destruct (null_frontmatter_is_an_error sample_world ["docs"; "n.md"]
              ["identifier"] initial_state _ eq_refl)
    as (e & _ & E & _).
  - cbn. lia.
  - reflexivity.
  - reflexivity.
  - discriminate.
  - exists e. exact E.
Defined.

(** ** No empty record *)

Lemma file_record_not_empty (w : World) (file_path : Path)
  (field_list : list string) :
  file_record w file_path field_list <> Some [].
Proof.
  unfold file_record.
  destruct (read_text w file_path) as [content|e] eqn:R.
  - destruct (no_frontmatter (split YAML_SEPARATOR content)) eqn:G.
    + rewrite (parse_frontmatter_warns w _ _ _ content R G). discriminate.
    + destruct (safe_load w (nth 1 (split YAML_SEPARATOR content) ""))
        as [data|e] eqn:D.
      * rewrite (parse_frontmatter_decoded w _ _ _ content data R G D).
        destruct (collect_fields field_list data []) as [[|kv r]|e];
          discriminate.
      * rewrite (parse_frontmatter_undecodable w _ _ _ content e R G D).
        discriminate.
  - rewrite (parse_frontmatter_unreadable w _ _ _ e R). discriminate.
Qed.

Lemma appended_not_empty (data : option record) :
  Forall (fun r => r <> []) (appended data).
Proof.
  destruct data as [[|kv r]|]; cbn; repeat constructor. discriminate.
Qed.

Lemma collected_not_empty (w : World) (field_list : list string)
  (files : list Path) :
  Forall (fun r : record => r <> [])
    (flat_map (fun p => appended (file_record w p field_list)) files).
Proof.
  induction files as [|p files IH]; cbn; [constructor|].
  apply Forall_app. split; [apply appended_not_empty|exact IH].
Qed.

(** C6. No call of [parse_frontmatter] returns an empty dictionary; when
    [parse_dir] returns a collection, the collection and each of its
    records is non-empty; and a well-formed file whose mapping holds none
    of the requested fields gives [None], with nothing printed. *)
Theorem records_are_never_empty (w : World) (field_list : list string) :
  (forall file_path, file_record w file_path field_list <> Some [])
  /\ (forall file_path dir out err,
        match fst (parse_dir w file_path field_list
                     (mkState out err (Some dir))) with
        | Returned (Some (ConfigMap all_data)) =>
            all_data <> [] /\ Forall (fun r => r <> []) all_data
        | Returned None => True
        | Raised _ => False
        end)
  /\ (forall file_path st content items,
        read_text w file_path = Ok content ->
        (3 <= List.length (split YAML_SEPARATOR content))%nat ->
        strip (nth 0 (split YAML_SEPARATOR content) "") = "" ->
        safe_load w (nth 1 (split YAML_SEPARATOR content) "")
        = Ok (PDict items) ->
        (forall f, In f field_list -> has_key items f = false) ->
        parse_frontmatter w file_path field_list st = (Returned None, st)).
Proof.
  split; [|split].
  - intros file_path. apply file_record_not_empty.
  - intros file_path dir out err.
    pose proof (parse_dir_run w file_path dir field_list
                  (mkState out err (Some dir)) eq_refl) as H.
    cbv zeta in H. rewrite H.
    pose proof (collected_not_empty w field_list (sorted (glob_md w dir)))
      as F.
    destruct (flat_map _ (sorted (glob_md w dir))) as [|r l]; cbn.
    + exact I.
    + split; [discriminate|exact F].
  - intros file_path st content items R L S D A.
    destruct (parse_frontmatter_mapping w file_path field_list st content
                items R (well_formed_parts _ L S) D) as (r & E & _ & K).
    rewrite E.
    replace (filter (has_key items) field_list) with (@nil string) in K.
    + destruct r; [reflexivity|discriminate].
    + symmetry. clear - A. induction field_list as [|f l IH]; cbn.
      * reflexivity.
      * rewrite (A f (or_introl eq_refl)). apply IH.
        intros g G. apply A. now right.
Qed.

Lemma records_are_never_empty_witness :
  parse_frontmatter sample_world ["docs"; "b.md"] ["commonName"; "license"]
    initial_state
  = (Returned None, initial_state).
Proof.
  destruct (records_are_never_empty sample_world ["commonName"; "license"])
    as (_ & _ & H).
  apply (H ["docs"; "b.md"] initial_state _
           [(PStr "identifier", PStr "x2")] eq_refl).
  - cbn. lia.
  - reflexivity.
  - reflexivity.
  - intros f [<-|[<-|[]]]; reflexivity.
Defined.

(** ** The empty result *)

(** When no file gives a record, [parse_dir] prints the notice and
    returns [None]; the script body then prints what [yaml.dump] makes of
    [None], and ends normally. *)
Lemma main_without_records (w : World) (directory : Path)
  (fields : list string) :
  is_dir w directory = true ->
  flat_map (fun p => appended (file_record w p fields))
    (sorted (glob_md w directory)) = [] ->
  exists st',
    main w directory fields initial_state = (Returned tt, st')
    /\ stdout st' = [notice; dump w None]
    /\ exit_status (fst (main w directory fields initial_state)) = 0%nat.
Proof.
  intros D E. unfold main, bind, store_scanpath. rewrite D. cbn [negb].
  pose proof (parse_dir_run w directory directory fields
                (mkState (stdout initial_state) (stderr initial_state)
                   (Some directory)) eq_refl) as H.
  cbv zeta in H. rewrite E in H. cbn [truthy] in H. rewrite H.
  eexists. split; [reflexivity|]. split; reflexivity.
Qed.

(** C7, on the code.  In a directory without any [.md] entry the script
    ends with status 0, but its standard output holds two texts: the
    notice, and after it the YAML document that [yaml.dump] writes for
    [None]. *)
Theorem empty_result_prints_notice_and_null :
  main bare_world ["docs"] ["identifier"] initial_state
  = (Returned tt,
     mkState [notice; "null" ++ nl ++ "..." ++ nl] [] (Some ["docs"]))
  /\ exit_status
       (fst (main bare_world ["docs"] ["identifier"] initial_state)) = 0%nat
  /\ stdout (snd (main bare_world ["docs"] ["identifier"] initial_state))
     <> [notice].
Proof. split; [reflexivity|]. split; [reflexivity|discriminate]. Qed.

(** ** The directory that is scanned *)

(** [parse_dir] does not read its first parameter. *)
Lemma parse_dir_ignores_parameter (w : World) (p q : Path)
  (field_list : list string) (st : state) :
  parse_dir w p field_list st = parse_dir w q field_list st.
Proof. reflexivity. Qed.

(** C8, on the code.  Called for the empty directory [other] while the
    global [scanpath] names [docs], [parse_dir] returns the records of
    [docs]; called while [scanpath] is unbound, as after an import of the
    module, it raises [NameError] whatever its argument. *)
Theorem parse_dir_scans_the_global :
  glob_md two_dirs_world ["other"] = []
  /\ fst (parse_dir two_dirs_world ["other"] ["identifier"]
            (mkState [] [] (Some ["docs"])))
     = Returned (Some (ConfigMap [[("identifier", PStr "x1")];
                                  [("identifier", PStr "x2")]]))
  /\ parse_dir two_dirs_world ["docs"] ["identifier"] initial_state
     = (Raised (RException (NameError "name 'scanpath' is not defined")),
        initial_state).
Proof. split; [reflexivity|]. split; reflexivity. Qed.

(** ** [sorted] *)

Section Sorting.

Context {A : Type} (ltb : A -> A -> bool).

Hypothesis ltb_irrefl : forall x, ltb x x = false.
Hypothesis ltb_trans :
  forall x y z, ltb x y = true -> ltb y z = true -> ltb x z = true.
Hypothesis ltb_total : forall x y, ltb x y = false -> ltb y x = false -> x = y.

(** [x] is not above [y]. *)
Local Abbreviation le := (fun x y => ltb y x = false).

Lemma ltb_asym (x y : A) : ltb x y = true -> ltb y x = false.
Proof.
  intros H. destruct (ltb y x) eqn:E; [|reflexivity].
  rewrite <- (ltb_irrefl x). symmetry. now apply ltb_trans with y.
Qed.

Lemma le_trans (x y z : A) : le x y -> le y z -> le x z.
Proof.
  cbn. intros XY YZ. destruct (ltb z x) eqn:ZX; [|reflexivity].
  destruct (ltb x y) eqn:E.
  - rewrite <- YZ. symmetry. now apply ltb_trans with x.
  - assert (x = y) by now apply ltb_total. subst. congruence.
Qed.

Lemma insert_by_perm (x : A) (l : list A) :
  Permutation (x :: l) (insert_by ltb x l).
Proof.
  induction l as [|y l IH]; cbn; [reflexivity|].
  destruct (ltb y x); [|reflexivity].
  rewrite perm_swap. now constructor.
Qed.

Lemma sorted_by_perm (l : list A) : Permutation l (sorted_by ltb l).
Proof.
  induction l as [|x l IH]; cbn; [constructor|].
  rewrite <- insert_by_perm. now constructor.
Qed.

Lemma insert_by_sorted (x : A) (l : list A) :
  StronglySorted le l -> StronglySorted le (insert_by ltb x l).
Proof.
  induction l as [|y l IH]; intros S; cbn.
  - repeat constructor.
  - apply StronglySorted_inv in S as [S F].
    destruct (ltb y x) eqn:E.
    + constructor; [now apply IH|].
      apply (Permutation_Forall (insert_by_perm x l)).
      constructor; [now apply ltb_asym|exact F].
    + constructor; [now constructor|].
      constructor; [exact E|].
      eapply Forall_impl; [|exact F]. intros z YZ. now apply le_trans with y.
Qed.

Lemma sorted_by_sorted (l : list A) : StronglySorted le (sorted_by ltb l).
Proof.
  induction l as [|x l IH]; cbn; [constructor|]. now apply insert_by_sorted.
Qed.

(** Two sorted lists with the same elements are the same list. *)
Lemma sorted_unique (l1 : list A) :
  forall l2,
    StronglySorted le l1 -> StronglySorted le l2 -> Permutation l1 l2 ->
    l1 = l2.
Proof.
  induction l1 as [|a l1 IH]; intros l2 S1 S2 P.
  - now apply Permutation_nil in P.
  - destruct l2 as [|b l2].
    + symmetry in P. now apply Permutation_nil in P.
    + apply StronglySorted_inv in S1 as [S1 F1].
      apply StronglySorted_inv in S2 as [S2 F2].
      assert (a = b) as <-.
      { assert (In a (b :: l2)) as Ia
          by (apply (Permutation_in a P); now left).
        assert (In b (a :: l1)) as Ib
          by (apply (Permutation_in b (Permutation_sym P)); now left).
        destruct Ia as [->|Ia]; [reflexivity|].
        destruct Ib as [->|Ib]; [reflexivity|].
        rewrite Forall_forall in F1, F2.
        apply ltb_total; [apply (F2 a Ia)|apply (F1 b Ib)]. }
      f_equal. apply IH; try assumption.
      now apply Permutation_cons_inv in P.
Qed.

(** The result of sorting does not depend on the order of the input. *)
Lemma sorted_by_permutation (l l' : list A) :
  Permutation l l' -> sorted_by ltb l = sorted_by ltb l'.
Proof.
  intros P. apply sorted_unique; try apply sorted_by_sorted.
  rewrite <- (sorted_by_perm l), <- (sorted_by_perm l'). exact P.
Qed.

End Sorting.

Lemma insert_by_map {A B} (f : A -> B) (ltbA : A -> A -> bool)
  (ltbB : B -> B -> bool) (x : A) (l : list A) :
  (forall a b, ltbB (f a) (f b) = ltbA a b) ->
  insert_by ltbB (f x) (map f l) = map f (insert_by ltbA x l).
Proof.
  intros H. induction l as [|y l IH]; cbn; [reflexivity|].
  rewrite H. destruct (ltbA y x); cbn; [now rewrite IH|reflexivity].
Qed.

Lemma sorted_by_map {A B} (f : A -> B) (ltbA : A -> A -> bool)
  (ltbB : B -> B -> bool) (l : list A) :
  (forall a b, ltbB (f a) (f b) = ltbA a b) ->
  sorted_by ltbB (map f l) = map f (sorted_by ltbA l).
Proof.
  intros H. induction l as [|x l IH]; cbn; [reflexivity|].
  rewrite IH. now apply insert_by_map.
Qed.

Lemma Permutation_filter_same {A} (f : A -> bool) (l l' : list A) :
  Permutation l l' -> Permutation (filter f l) (filter f l').
Proof.
  induction 1 as [|x l l' _ IH|x y l|l l' l'' _ IH1 _ IH2]; cbn.
  - constructor.
  - destruct (f x); [now constructor|exact IH].
  - destruct (f x), (f y); try reflexivity. constructor.
  - now transitivity (filter f l').
Qed.

(** ** The order of strings and of paths *)

Lemma ascii_compare_refl (c : ascii) : Ascii.compare c c = Eq.
Proof. apply N.compare_refl. Qed.

Lemma string_compare_refl (s : string) : String.compare s s = Eq.
Proof.
  induction s as [|c s IH]; cbn; [reflexivity|].
  now rewrite ascii_compare_refl.
Qed.

Lemma ascii_compare_lt_trans (a b c : ascii) :
  Ascii.compare a b = Lt -> Ascii.compare b c = Lt -> Ascii.compare a c = Lt.
Proof.
  unfold Ascii.compare. rewrite !N.compare_lt_iff. apply N.lt_trans.
Qed.

Lemma string_compare_lt_trans (x : string) :
  forall y z,
    String.compare x y = Lt -> String.compare y z = Lt ->
    String.compare x z = Lt.
Proof.
  induction x as [|a x IH]; intros [|b y] [|c z]; cbn; try congruence.
  destruct (Ascii.compare a b) eqn:AB; try discriminate;
    destruct (Ascii.compare b c) eqn:BC; try discriminate.
  - apply Ascii.compare_eq_iff in AB, BC. subst.
    rewrite ascii_compare_refl. apply IH.
  - apply Ascii.compare_eq_iff in AB. subst. now rewrite BC.
  - apply Ascii.compare_eq_iff in BC. subst. now rewrite AB.
  - now rewrite (ascii_compare_lt_trans a b c AB BC).
Qed.

Lemma string_ltb_irrefl (x : string) : String.ltb x x = false.
Proof. unfold String.ltb. now rewrite string_compare_refl. Qed.

Lemma string_ltb_trans (x y z : string) :
  String.ltb x y = true -> String.ltb y z = true -> String.ltb x z = true.
Proof.
  unfold String.ltb. intros XY YZ.
  destruct (String.compare x y) eqn:A; try discriminate.
  destruct (String.compare y z) eqn:B; try discriminate.
  now rewrite (string_compare_lt_trans x y z A B).
Qed.

Lemma string_ltb_total (x y : string) :
  String.ltb x y = false -> String.ltb y x = false -> x = y.
Proof.
  unfold String.ltb. rewrite (String.compare_antisym y x).
  destruct (String.compare x y) eqn:C; cbn; try discriminate.
  intros _ _. now apply String.compare_eq_iff.
Qed.

Lemma string_leb_ltb (x y : string) : String.leb x y = negb (String.ltb y x).
Proof.
  unfold String.leb, String.ltb. rewrite (String.compare_antisym y x).
  destruct (String.compare x y); reflexivity.
Qed.

(** Two entries of one directory compare as their names do. *)
Lemma path_ltb_joinpath (dir : Path) (a b : string) :
  path_ltb (joinpath dir a) (joinpath dir b) = String.ltb a b.
Proof.
  unfold path_ltb, String.ltb, joinpath.
  induction dir as [|d dir IH]; cbn.
  - destruct (String.compare a b); reflexivity.
  - rewrite string_compare_refl. exact IH.
Qed.

Lemma sorted_glob_md (w : World) (dir : Path) :
  sorted (glob_md w dir)
  = map (joinpath dir)
      (sorted_by String.ltb (filter (endswith ".md") (iterdir w dir))).
Proof.
  unfold sorted, glob_md. apply sorted_by_map. apply path_ltb_joinpath.
Qed.

Lemma sorted_names_ascending (names : list string) :
  StronglySorted (fun a b => String.leb a b = true)
    (sorted_by String.ltb names).
Proof.
  pose proof (sorted_by_sorted String.ltb string_ltb_irrefl string_ltb_trans
                string_ltb_total names) as S.
  induction S as [|a l _ IH F]; constructor; [exact IH|].
  eapply Forall_impl; [|exact F].
  cbn. intros b H. now rewrite string_leb_ltb, H.
Qed.

(** C5. Whatever the order in which the system lists the directory, the
    files are visited by ascending name: the names ending in [.md] are
    put in ascending order of their code points, the paths handed to the
    loop are these names under the directory, the records returned are
    those of the files in that order, and a world that lists the same
    entries in another order gives the same result and the same
    output. *)
Theorem records_follow_sorted_filenames (w : World) (dir file_path : Path)
  (field_list : list string) (out err : list string) :
  let names := filter (endswith ".md") (iterdir w dir) in
  let ordered := sorted_by String.ltb names in
  StronglySorted (fun a b => String.leb a b = true) ordered
  /\ Permutation names ordered
  /\ sorted (glob_md w dir) = map (joinpath dir) ordered
  /\ fst (parse_dir w file_path field_list (mkState out err (Some dir)))
     = Returned
         match flat_map
                 (fun n => appended (file_record w (joinpath dir n) field_list))
                 ordered
         with
         | [] => None
         | all_data => Some (ConfigMap all_data)
         end
  /\ (forall listing,
        Permutation (iterdir w dir) (listing dir) ->
        parse_dir (mkWorld (read_text w) (safe_load w) listing (is_dir w)
                     (dump w))
          file_path field_list (mkState out err (Some dir))
        = parse_dir w file_path field_list (mkState out err (Some dir))).
Proof.
  intros names ordered. split; [|split; [|split; [|split]]].
  - apply sorted_names_ascending.
  - apply sorted_by_perm.
  - apply sorted_glob_md.
  - pose proof (parse_dir_run w file_path dir field_list
                  (mkState out err (Some dir)) eq_refl) as H.
    cbv zeta in H. rewrite H, sorted_glob_md, flat_map_concat_map, map_map,
      <- flat_map_concat_map.
    fold names. fold ordered.
    destruct (flat_map _ ordered); reflexivity.
  - intros listing P.
    set (w' := mkWorld (read_text w) (safe_load w) listing (is_dir w) (dump w)).
    pose proof (parse_dir_run w file_path dir field_list
                  (mkState out err (Some dir)) eq_refl) as H.
    pose proof (parse_dir_run w' file_path dir field_list
                  (mkState out err (Some dir)) eq_refl) as H'.
    cbv zeta in H, H'. rewrite H, H'.
    replace (sorted (glob_md w' dir)) with (sorted (glob_md w dir)).
    + reflexivity.
    + rewrite !sorted_glob_md. f_equal.
      apply sorted_by_permutation;
        [apply string_ltb_irrefl|apply string_ltb_trans|apply string_ltb_total|].
      apply Permutation_filter_same. exact P.
Qed.

Lemma records_follow_sorted_filenames_witness :
  parse_dir
    (mkWorld (read_text sample_world) (safe_load sample_world)
       (fun _ => rev (map fst sample_files))
       (is_dir sample_world) (dump sample_world))
    ["docs"] ["identifier"] (mkState [] [] (Some ["docs"]))
  = parse_dir sample_world ["docs"] ["identifier"]
      (mkState [] [] (Some ["docs"]))
  /\ fst (parse_dir sample_world ["docs"] ["identifier"]
            (mkState [] [] (Some ["docs"])))
     = Returned (Some (ConfigMap [[("identifier", PStr "x1")];
                                  [("identifier", PStr "x2")]])).
Proof.
  destruct (records_follow_sorted_filenames sample_world ["docs"] ["docs"]
              ["identifier"] [] []) as (_ & _ & _ & R & H).
  split.
  - apply (H (fun _ => rev (map fst sample_files))). apply Permutation_rev.
  - etransitivity; [exact R|reflexivity].
Defined.

(** * Further properties of the script *)

(** ** The script body *)

(** X1. When the path given on the command line is not a directory, the
    script reads no file and prints nothing on standard output: it
    prints one line on the error stream, which quotes the path, and
    exits with status 1. *)
Theorem main_invalid_directory (w : World) (directory : Path)
  (fields : list string) (st : state) :
  is_dir w directory = false ->
  main w directory fields st
  = (Raised (RSystemExit 1),
     mkState (stdout st)
       (stderr st ++ [("ERROR: path '" ++ path_str directory
                       ++ "' is not valid dir.")%string])%list
       (Some directory))
  /\ exit_status (fst (main w directory fields st)) = 1%nat.
Proof.
  intros D. unfold main, bind, store_scanpath. rewrite D. cbn [negb].
  split; reflexivity.
Qed.

Lemma main_invalid_directory_witness :
  main no_dir_world ["missing"; "docs"] ["identifier"] initial_state
  = (Raised (RSystemExit 1),
     mkState [] ["ERROR: path 'missing/docs' is not valid dir."]
       (Some ["missing"; "docs"])).
Proof.
  destruct (main_invalid_directory no_dir_world ["missing"; "docs"]
              ["identifier"] initial_state eq_refl) as [H _].
  exact H.
Defined.

(** What the script body does for a directory. *)
Lemma main_run (w : World) (directory : Path) (fields : list string)
  (st : state) :
  is_dir w directory = true ->
  let files := sorted (glob_md w directory) in
  let all_data := flat_map (fun p => appended (file_record w p fields)) files in
  let lines := flat_map (fun p => file_diagnostics w p fields) files in
  main w directory fields st
  = (Returned tt,
     mkState
       (stdout st
        ++ (if truthy all_data
            then [dump w (Some (ConfigMap all_data))]
            else [notice; dump w None]))%list
       (stderr st ++ lines)%list
       (Some directory)).
Proof.
  intros D files all_data lines. unfold main, bind, store_scanpath.
  rewrite D. cbn [negb].
  pose proof (parse_dir_run w directory directory fields
                (mkState (stdout st) (stderr st) (Some directory)) eq_refl)
    as H.
  cbv zeta in H. fold files in H. fold all_data in H. fold lines in H.
  rewrite H. destruct (truthy all_data); cbn.
  - reflexivity.
  - unfold print. cbn. now rewrite <- app_assoc.
Qed.

(** X2. Run on a directory in which at least one file gives a record,
    the script scans the directory named on the command line, prints
    one text on standard output, the dump of the collection of records
    in ascending order of the file names, prints on the error stream the
    diagnostics of the files in the same order, and never prints the
    notice. *)
Theorem main_prints_config_map (w : World) (directory : Path)
  (fields : list string) :
  is_dir w directory = true ->
  flat_map (fun p => appended (file_record w p fields))
    (sorted (glob_md w directory)) <> [] ->
  main w directory fields initial_state
  = (Returned tt,
     mkState
       [dump w (Some (ConfigMap
                        (flat_map (fun p => appended (file_record w p fields))
                           (sorted (glob_md w directory)))))]
       (flat_map (fun p => file_diagnostics w p fields)
          (sorted (glob_md w directory)))
       (Some directory)).
Proof.
  intros D N. pose proof (main_run w directory fields initial_state D) as H.
  cbv zeta in H. rewrite H.
  destruct (flat_map (fun p => appended (file_record w p fields))
              (sorted (glob_md w directory))); [congruence|reflexivity].
Qed.

Lemma main_prints_config_map_witness :
  stdout (snd (main sample_world ["docs"] ["identifier"] initial_state))
  = [dump sample_world
       (Some (ConfigMap [[("identifier", PStr "x1")];
                         [("identifier", PStr "x2")]]))].
Proof.
  rewrite (main_prints_config_map sample_world ["docs"] ["identifier"]
             eq_refl).
  - reflexivity.
  - discriminate.
Defined.

(** X3. The exit status depends on the directory test alone: it is 0 for
    a directory, whatever the files in it do, and 1 otherwise. *)
Theorem main_exit_status (w : World) (directory : Path)
  (fields : list string) (st : state) :
  exit_status (fst (main w directory fields st))
  = if is_dir w directory then 0%nat else 1%nat.
Proof.
  destruct (is_dir w directory) eqn:D.
  - pose proof (main_run w directory fields st D) as H. cbv zeta in H.
    now rewrite H.
  - unfold main, bind, store_scanpath. rewrite D. reflexivity.
Qed.

(** ** One file, one outcome *)






(** ** What the split hands to the decoder *)

(** X8. No segment of the split holds the separator; in particular the
    text that goes to [yaml.safe_load] never holds [---], so a
    frontmatter ends at the first three hyphens in it, wherever they
    stand in a line. *)
Theorem segments_never_contain_separator (content : string) :
  Forall (fun seg => contains YAML_SEPARATOR seg = false)
    (split YAML_SEPARATOR content)
  /\ contains YAML_SEPARATOR (nth 1 (split YAML_SEPARATOR content) "") = false.
Proof.
  assert (N : YAML_SEPARATOR <> "") by discriminate.
  assert (F : Forall (fun seg => contains YAML_SEPARATOR seg = false)
                (split YAML_SEPARATOR content)).
  { unfold split.
    pose proof (split_from_head_clean YAML_SEPARATOR content N) as H.
    pose proof (split_from_tail_clean YAML_SEPARATOR N _ content (le_n _)) as T.
    destruct (split_from YAML_SEPARATOR 0 content) as [h t].
    now constructor. }
  split; [exact F|].
  rewrite Forall_forall in F.
  destruct (nth_in_or_default 1 (split YAML_SEPARATOR content) "") as [I | ->].
  - now apply F.
  - reflexivity.
Qed.

(** X9. The split loses nothing: the segments put together again with
    [---] between them are the text that was read. *)
Theorem split_join_round_trip (content : string) :
  join YAML_SEPARATOR (split YAML_SEPARATOR content) = content.
Proof. apply join_split. discriminate. Qed.

Lemma split_without_separator (sep s : string) :
  contains sep s = false -> split sep s = [s].
Proof.
  unfold split. induction s as [|c s IH]; intros C; [reflexivity|].
  cbn [contains] in C. apply orb_false_iff in C as [P C].
  cbn [split_from]. rewrite P. specialize (IH C).
  destruct (split_from sep 0 s) as [h t]. now inversion IH.
Qed.

(** X10. A readable file in which [---] does not occur, an empty file
    among them, gives [None] and the warning, and is not decoded. *)
Theorem no_separator_warns (w : World) (file_path : Path)
  (field_list : list string) (st : state) (content : string) :
  read_text w file_path = Ok content ->
  contains YAML_SEPARATOR content = false ->
  parse_frontmatter w file_path field_list st
  = (Returned None,
     add_err st ["WARN: Skipping " ++ name file_path
                 ++ ": No frontmatter found."]).
Proof.
  intros R C. apply (parse_frontmatter_warns w _ _ _ content R).
  now rewrite (split_without_separator _ _ C).
Qed.

Lemma no_separator_warns_witness :
  parse_frontmatter sample_world ["docs"; "c.md"] ["identifier"]
    initial_state
  = (Returned None,
     add_err initial_state ["WARN: Skipping c.md: No frontmatter found."]).
Proof.
  apply (no_separator_warns sample_world ["docs"; "c.md"] ["identifier"]
           initial_state "no frontmatter here"); reflexivity.
Defined.

(** X11. A file whose first character is neither whitespace nor the
    first hyphen of a leading [---] gives [None] and the warning,
    however many separators follow. *)
Theorem leading_text_warns (w : World) (file_path : Path)
  (field_list : list string) (st : state) (c : ascii) (s : string) :
  read_text w file_path = Ok (String c s) ->
  isspace c = false ->
  prefix YAML_SEPARATOR (String c s) = false ->
  parse_frontmatter w file_path field_list st
  = (Returned None,
     add_err st ["WARN: Skipping " ++ name file_path
                 ++ ": No frontmatter found."]).
Proof.
  intros R W P. apply (parse_frontmatter_warns w _ _ _ _ R).
  unfold no_frontmatter, split. cbn [split_from]. rewrite P.
  destruct (split_from YAML_SEPARATOR 0 s) as [h t]. cbn [nth].
  rewrite strip_eqb_blank. cbn [blank]. rewrite W. cbn.
  apply orb_true_r.
Qed.

Lemma leading_text_warns_witness :
  parse_frontmatter
    (table_world [("t.md", "title" ++ nl ++ post ("a: 1" ++ nl) "")] [])
    ["docs"; "t.md"] ["a"] initial_state
  = (Returned None,
     add_err initial_state ["WARN: Skipping t.md: No frontmatter found."]).
Proof.
  apply (leading_text_warns
           (table_world [("t.md", "title" ++ nl ++ post ("a: 1" ++ nl) "")] [])
           ["docs"; "t.md"] ["a"] initial_state "t"
           ("itle" ++ nl ++ post ("a: 1" ++ nl) ""));
    reflexivity.
Defined.

(** Up to the first place where a separator starts, the scan copies the
    text. *)
Lemma split_from_clean_head (fm rest : string) :
  contains YAML_SEPARATOR (fm ++ "--") = false ->
  split YAML_SEPARATOR (fm ++ YAML_SEPARATOR ++ rest)
  = fm :: split YAML_SEPARATOR rest.
Proof.
  unfold split. induction fm as [|c fm IH]; intros C.
  - change ("" ++ YAML_SEPARATOR ++ rest) with (YAML_SEPARATOR ++ rest).
    rewrite split_from_separator. reflexivity.
  - change (String c fm ++ "--") with (String c (fm ++ "--")) in C.
    cbn [contains] in C. apply orb_false_iff in C as [P C].
    specialize (IH C).
    change (String c fm ++ YAML_SEPARATOR ++ rest)
      with (String c (fm ++ YAML_SEPARATOR ++ rest)).
    cbn [split_from].
    replace (prefix YAML_SEPARATOR (String c (fm ++ YAML_SEPARATOR ++ rest)))
      with false.
    + destruct (split_from YAML_SEPARATOR 0 (fm ++ YAML_SEPARATOR ++ rest)).
      destruct (split_from YAML_SEPARATOR 0 rest).
      now inversion IH.
    + rewrite <- P.
      change (String c (fm ++ YAML_SEPARATOR ++ rest))
        with (String c fm ++ ("--" ++ "-" ++ rest)).
      rewrite <- append_assoc, <- append_assoc.
      change (String c (fm ++ "--")) with (String c fm ++ "--").
      rewrite (append_assoc (String c fm ++ "--")).
      symmetry. apply prefix_append_long.
      rewrite length_append. cbn. lia.
Qed.

(** X12. In a text made of a blank head, [---], a frontmatter in which
    no [---] starts, [---] and a body, the second segment is the
    frontmatter, the test of line 23 passes, and the outcome is fixed by
    what the decoder makes of the frontmatter: neither the head nor the
    body takes part. *)
Theorem frontmatter_is_decoded_alone (w : World) (file_path : Path)
  (field_list : list string) (st : state) (head fm body : string) :
  read_text w file_path
  = Ok (head ++ YAML_SEPARATOR ++ fm ++ YAML_SEPARATOR ++ body) ->
  blank head = true ->
  contains YAML_SEPARATOR (fm ++ "--") = false ->
  split YAML_SEPARATOR (head ++ YAML_SEPARATOR ++ fm ++ YAML_SEPARATOR ++ body)
  = head :: fm :: split YAML_SEPARATOR body
  /\ parse_frontmatter w file_path field_list st
     = match safe_load w fm with
       | Err e => (Returned None, add_err st [error_line file_path e])
       | Ok data =>
           match collect_fields field_list data [] with
           | Ok return_hash =>
               (Returned (if truthy return_hash then Some return_hash
                          else None), st)
           | Err e => (Returned None, add_err st [error_line file_path e])
           end
       end.
Proof.
  intros R B C.
  assert (E : split YAML_SEPARATOR
                (head ++ YAML_SEPARATOR ++ fm ++ YAML_SEPARATOR ++ body)
              = head :: fm :: split YAML_SEPARATOR body).
  { rewrite (split_blank_head _ _ B). f_equal.
    apply split_from_clean_head, C. }
  split; [exact E|].
  assert (G : no_frontmatter
                (split YAML_SEPARATOR
                   (head ++ YAML_SEPARATOR ++ fm ++ YAML_SEPARATOR ++ body))
              = false).
  { rewrite E. unfold no_frontmatter. cbn [nth].
    rewrite strip_eqb_blank, B.
    unfold split. destruct (split_from YAML_SEPARATOR 0 body). reflexivity. }
  destruct (safe_load w fm) as [data|e] eqn:D.
  - rewrite (parse_frontmatter_decoded w _ _ _ _ data R G);
      [reflexivity|now rewrite E].
  - rewrite (parse_frontmatter_undecodable w _ _ _ _ e R G);
      [reflexivity|now rewrite E].
Qed.

Lemma frontmatter_is_decoded_alone_witness :
  parse_frontmatter sample_world ["docs"; "a.md"] ["commonName"]
    initial_state
  = (Returned (Some [("commonName", PStr "Org A")]), initial_state).
Proof.
  destruct (frontmatter_is_decoded_alone sample_world ["docs"; "a.md"]
              ["commonName"] initial_state ""
              (nl ++ "identifier: x1" ++ nl ++ "commonName: Org A" ++ nl)
              (nl ++ "body" ++ nl ++ "---" ++ nl ++ "more")
              eq_refl eq_refl eq_refl)
    as [_ H].
  exact H.
Defined.

(** ** Repeated field names *)

Lemma dict_set_same (d : record) (f : string) (v : pyobj) :
  lookup f d = Some v -> dict_set d f v = d.
Proof.
  induction d as [|[k' v'] d IH]; cbn; [discriminate|].
  destruct (k' =? f); intros L.
  - now injection L as ->.
  - now rewrite IH.
Qed.

(** Once a field went through the loop, going through it again changes
    nothing: it is absent from the data, or the dictionary already has
    its value. *)
Lemma collect_fields_skip (data : pyobj) (f : string)
  (field_list : list string) :
  forall return_hash,
    py_contains data f = Ok false
    \/ (exists v, py_contains data f = Ok true
                  /\ py_getitem data f = Ok v
                  /\ lookup f return_hash = Some v) ->
    collect_fields field_list data return_hash
    = collect_fields (filter (fun y => negb (y =? f)) field_list) data
        return_hash.
Proof.
  induction field_list as [|g l IH]; intros acc S; [reflexivity|].
  cbn [filter]. destruct (String.eqb_spec g f) as [->|N]; cbn [negb].
  - cbn [collect_fields]. destruct S as [C|(v & C & G & L)].
    + rewrite C. apply IH. now left.
    + rewrite C, G, (dict_set_same _ _ _ L). apply IH.
      right. now exists v.
  - cbn [collect_fields].
    destruct (py_contains data g) as [[|]|e]; [|now apply IH|reflexivity].
    destruct (py_getitem data g) as [v'|e]; [|reflexivity].
    apply IH. destruct S as [C|(v & C & G & L)]; [now left|].
    right. exists v. repeat split; try assumption.
    rewrite lookup_dict_set.
    destruct (String.eqb_spec g f); [contradiction|exact L].
Qed.

Lemma collect_fields_first_occurrences (data : pyobj)
  (field_list : list string) :
  forall return_hash,
    collect_fields field_list data return_hash
    = collect_fields (first_occurrences field_list) data return_hash.
Proof.
  induction field_list as [|f l IH]; intros acc; [reflexivity|].
  cbn [first_occurrences collect_fields].
  destruct (py_contains data f) as [[|]|e] eqn:C; [| |reflexivity].
  - destruct (py_getitem data f) as [v|e] eqn:G; [|reflexivity].
    rewrite IH. apply collect_fields_skip.
    right. exists v. repeat split; try assumption.
    now rewrite lookup_dict_set, String.eqb_refl.
  - rewrite IH. apply collect_fields_skip. now left.
Qed.

(** X13. Asking for a field more than once changes nothing: the call
    returns and prints the same as for the request with each name kept
    at its first occurrence only. *)
Theorem repeated_fields_have_no_effect (w : World) (file_path : Path)
  (field_list : list string) (st : state) :
  parse_frontmatter w file_path field_list st
  = parse_frontmatter w file_path (first_occurrences field_list) st.
Proof.
  destruct (read_text w file_path) as [content|e] eqn:R.
  - destruct (no_frontmatter (split YAML_SEPARATOR content)) eqn:G.
    + now rewrite !(parse_frontmatter_warns w _ _ _ content R G).
    + destruct (safe_load w (nth 1 (split YAML_SEPARATOR content) ""))
        as [data|e] eqn:D.
      * rewrite !(parse_frontmatter_decoded w _ _ _ content data R G D).
        now rewrite collect_fields_first_occurrences.
      * now rewrite !(parse_frontmatter_undecodable w _ _ _ content e R G D).
  - now rewrite !(parse_frontmatter_unreadable w _ _ _ e R).
Qed.

(** ** The entries that are scanned *)

Lemma endswith_spec (suf s : string) :
  endswith suf s = true <-> exists stem, s = stem ++ suf.
Proof.
  split.
  - induction s as [|c s IH]; cbn [endswith]; intros H.
    + rewrite orb_false_r in H. apply String.eqb_eq in H. now exists "".
    + apply orb_true_iff in H as [H|H].
      * apply String.eqb_eq in H. now exists "".
      * destruct (IH H) as (stem & ->). now exists (String c stem).
  - intros (stem & ->). induction stem as [|c stem IH].
    + destruct suf; cbn [append endswith]; now rewrite String.eqb_refl.
    + cbn [append endswith]. rewrite IH. apply orb_true_r.
Qed.

(** X14. The paths handed to the loop are the entries of the directory
    whose name is some stem followed by [.md], each under the directory
    and as often as the listing has it: no other entry is visited and
    none of these is left out. *)
Theorem scanned_entries (w : World) (dir p : Path) :
  In p (sorted (glob_md w dir))
  <-> exists stem,
        In (stem ++ ".md") (iterdir w dir)
        /\ p = joinpath dir (stem ++ ".md").
Proof.
  rewrite sorted_glob_md, in_map_iff. split.
  - intros (n & <- & I).
    apply (Permutation_in n (Permutation_sym (sorted_by_perm _ _))) in I.
    apply filter_In in I as [I E].
    apply endswith_spec in E as (stem & ->). now exists stem.
  - intros (stem & I & ->). exists (stem ++ ".md"). split; [reflexivity|].
    apply (Permutation_in _ (sorted_by_perm _ _)).
    apply filter_In. split; [exact I|].
    apply endswith_spec. now exists stem.
Qed.

Lemma scanned_entries_witness :
  In ["docs"; "a.md"] (sorted (glob_md sample_world ["docs"]))
  /\ ~ In ["docs"; "notes.txt"] (sorted (glob_md sample_world ["docs"])).
Proof.
  split.
  - apply (scanned_entries sample_world ["docs"] ["docs"; "a.md"]).
    exists "a". split; [|reflexivity]. cbn. tauto.
  - intros I.
    apply (scanned_entries sample_world ["docs"] ["docs"; "notes.txt"]) in I.
    destruct I as (stem & _ & E). injection E as E.
    assert (C : endswith ".md" "notes.txt" = true)
      by (apply endswith_spec; now exists stem).
    discriminate C.
Defined.

Lemma flat_map_ext_in {A B} (f g : A -> list B) (l : list A) :
  (forall a, In a l -> f a = g a) -> flat_map f l = flat_map g l.
Proof.
  induction l as [|a l IH]; intros H; cbn; [reflexivity|].
  rewrite (H a (or_introl eq_refl)), IH; [reflexivity|].
  intros b I. apply H. now right.
Qed.

Lemma parse_frontmatter_same_reads (w w' : World) (file_path : Path)
  (field_list : list string) (st : state) :
  read_text w' file_path = read_text w file_path ->
  (forall s, safe_load w' s = safe_load w s) ->
  parse_frontmatter w' file_path field_list st
  = parse_frontmatter w file_path field_list st.
Proof.
  intros R D.
  unfold parse_frontmatter, try_except, parse_frontmatter_body, bind.
  rewrite R. destruct (read_text w file_path) as [content|e]; cbn [call ret];
    [|reflexivity].
  destruct (no_frontmatter (split YAML_SEPARATOR content)); [reflexivity|].
  now rewrite D.
Qed.

(** X15. Only the entries whose name ends in [.md] are opened: two file
    systems that list the same entries in the directory and hold the
    same text under each of these names give the same records and the
    same output, whatever else differs between them. *)
Theorem only_md_entries_are_read (w w' : World) (file_path dir : Path)
  (field_list : list string) (st : state) :
  scanpath st = Some dir ->
  iterdir w' dir = iterdir w dir ->
  (forall s, safe_load w' s = safe_load w s) ->
  (forall n, endswith ".md" n = true ->
             read_text w' (joinpath dir n) = read_text w (joinpath dir n)) ->
  parse_dir w' file_path field_list st = parse_dir w file_path field_list st.
Proof.
  intros S L D R.
  pose proof (parse_dir_run w file_path dir field_list st S) as H.
  pose proof (parse_dir_run w' file_path dir field_list st S) as H'.
  cbv zeta in H, H'. rewrite H, H'.
  assert (G : sorted (glob_md w' dir) = sorted (glob_md w dir))
    by (unfold glob_md; now rewrite L).
  rewrite G.
  assert (E : forall p, In p (sorted (glob_md w dir)) ->
                forall st0,
                  parse_frontmatter w' p field_list st0
                  = parse_frontmatter w p field_list st0).
  { intros p I st0. apply parse_frontmatter_same_reads; [|exact D].
    rewrite sorted_glob_md, in_map_iff in I. destruct I as (n & <- & I).
    apply R.
    apply (Permutation_in n (Permutation_sym (sorted_by_perm _ _))) in I.
    now apply filter_In in I. }
  rewrite (flat_map_ext_in
             (fun p => appended (file_record w' p field_list))
             (fun p => appended (file_record w p field_list)))
    by (intros p I; unfold file_record; now rewrite (E p I)).
  rewrite (flat_map_ext_in
             (fun p => file_diagnostics w' p field_list)
             (fun p => file_diagnostics w p field_list))
    by (intros p I; unfold file_diagnostics; now rewrite (E p I)).
  reflexivity.
Qed.

Lemma only_md_entries_are_read_witness :
  read_text other_notes_world ["docs"; "notes.txt"]
  <> read_text sample_world ["docs"; "notes.txt"]
  /\ parse_dir other_notes_world ["docs"] ["identifier"]
       (mkState [] [] (Some ["docs"]))
     = parse_dir sample_world ["docs"] ["identifier"]
         (mkState [] [] (Some ["docs"])).
Proof.
  split; [discriminate|].
  apply (only_md_entries_are_read sample_world other_notes_world ["docs"]
           ["docs"] ["identifier"] (mkState [] [] (Some ["docs"])) eq_refl
           eq_refl (fun s => eq_refl)).
  intros n E. unfold other_notes_world, read_text at 1. unfold joinpath.
  replace (name (["docs"] ++ [n])%list) with n by reflexivity.
  destruct (String.eqb_spec n "notes.txt") as [->|_]; [discriminate E|].
  reflexivity.
Defined.

(** ** The order of the request *)

Lemma contains_error_any_field (data : pyobj) (f g : string) (e : Exception) :
  py_contains data f = Err e -> py_contains data g = Err e.
Proof. destruct data; cbn; congruence. Qed.

Lemma getitem_error_any_field (data : pyobj) (f g : string) (e : Exception) :
  (forall items, data <> PDict items) ->
  py_getitem data f = Err e -> py_getitem data g = Err e.
Proof.
  intros N. destruct data; cbn; try congruence. now destruct (N items).
Qed.

Lemma collect_fields_error_origin (data : pyobj) (field_list : list string) :
  forall return_hash e,
    collect_fields field_list data return_hash = Err e ->
    (exists f, py_contains data f = Err e)
    \/ (exists f, py_contains data f = Ok true /\ py_getitem data f = Err e).
Proof.
  induction field_list as [|f l IH]; intros acc e; cbn; [discriminate|].
  destruct (py_contains data f) as [[|]|e0] eqn:C.
  - destruct (py_getitem data f) as [v|e1] eqn:G.
    + apply IH.
    + intros [= <-]. right. now exists f.
  - apply IH.
  - intros [= <-]. left. now exists f.
Qed.

(** On a value that is not a mapping the loop can end in one exception
    only, whichever field meets it first. *)
Lemma non_mapping_error_unique (data : pyobj) (l l' : list string)
  (acc acc' : record) (e e' : Exception) :
  (forall items, data <> PDict items) ->
  collect_fields l data acc = Err e ->
  collect_fields l' data acc' = Err e' ->
  e = e'.
Proof.
  intros N A B.
  apply collect_fields_error_origin in A, B.
  destruct A as [(f & C)|(f & C & G)], B as [(g & C')|(g & C' & G')].
  - apply (contains_error_any_field _ _ g) in C. congruence.
  - apply (contains_error_any_field _ _ g) in C. congruence.
  - apply (contains_error_any_field _ _ f) in C'. congruence.
  - apply (getitem_error_any_field _ _ g _ N) in G. congruence.
Qed.

Lemma collect_fields_non_mapping_ok (data : pyobj) (field_list : list string)
  (acc r : record) :
  (forall items, data <> PDict items) ->
  collect_fields field_list data acc = Ok r ->
  (forall f, In f field_list -> py_contains data f = Ok false) /\ r = acc.
Proof.
  intros N C.
  assert (A : forall f, In f field_list -> py_contains data f = Ok false).
  { intros f I. destruct (py_contains data f) as [[|]|e'] eqn:P;
      [| reflexivity |];
      destruct (collect_fields_non_mapping_raises data field_list acc N)
        as (e & E); try congruence; exists f; split; congruence. }
  split; [exact A|].
  rewrite (collect_fields_all_absent _ _ _ A) in C. congruence.
Qed.

Lemma collect_fields_non_mapping_permutation (data : pyobj)
  (l l' : list string) :
  (forall items, data <> PDict items) ->
  Permutation l l' ->
  collect_fields l data [] = collect_fields l' data [].
Proof.
  intros N P.
  destruct (collect_fields l data []) as [r|e] eqn:A;
    destruct (collect_fields l' data []) as [r'|e'] eqn:B.
  - apply (collect_fields_non_mapping_ok _ _ _ _ N) in A as [_ ->].
    apply (collect_fields_non_mapping_ok _ _ _ _ N) in B as [_ ->].
    reflexivity.
  - apply (collect_fields_non_mapping_ok _ _ _ _ N) in A as [A _].
    rewrite collect_fields_all_absent in B; [discriminate|].
    intros f I. apply A. now apply (Permutation_in f (Permutation_sym P)).
  - apply (collect_fields_non_mapping_ok _ _ _ _ N) in B as [B _].
    rewrite collect_fields_all_absent in A; [discriminate|].
    intros f I. apply B. now apply (Permutation_in f P).
  - f_equal. exact (non_mapping_error_unique data l l' [] [] e e' N A B).
Qed.

Lemma mem_permutation (k : string) (l l' : list string) :
  Permutation l l' -> mem k l = mem k l'.
Proof.
  intros P. destruct (mem k l') eqn:M.
  - apply mem_true. apply mem_true in M.
    now apply (Permutation_in k (Permutation_sym P)).
  - destruct (mem k l) eqn:M'; [|reflexivity].
    apply mem_true in M'. apply (Permutation_in k P) in M'.
    apply mem_true in M'. congruence.
Qed.

Lemma lookup_nowhere (r : record) :
  (forall k, lookup k r = None) -> r = [].
Proof.
  destruct r as [|[k v] r]; [reflexivity|]. intros H. specialize (H k).
  cbn in H. now rewrite String.eqb_refl in H.
Qed.

(** X16. The order of the requested fields decides the order of the
    keys and nothing else: for two requests with the same names the
    call prints the same lines, returns [None] for both or a record for
    both, and the two records map every key to the same value. *)
Theorem field_order_only_orders_keys (w : World) (file_path : Path)
  (l l' : list string) :
  Permutation l l' ->
  file_diagnostics w file_path l = file_diagnostics w file_path l'
  /\ match file_record w file_path l, file_record w file_path l' with
     | Some r, Some r' => forall k, lookup k r = lookup k r'
     | None, None => True
     | _, _ => False
     end.
Proof.
  intros P. unfold file_record, file_diagnostics.
  destruct (read_text w file_path) as [content|e] eqn:R.
  - destruct (no_frontmatter (split YAML_SEPARATOR content)) eqn:G.
    + rewrite !(parse_frontmatter_warns w _ _ _ content R G). now split.
    + destruct (safe_load w (nth 1 (split YAML_SEPARATOR content) ""))
        as [data|e] eqn:D.
      * rewrite !(parse_frontmatter_decoded w _ _ _ content data R G D).
        assert (M : (exists items, data = PDict items)
                    \/ forall items, data <> PDict items)
          by (destruct data; try (right; discriminate); left; eauto).
        destruct M as [(items & ->)|N].
        -- destruct (collect_fields_mapping items l []) as (r & -> & L & _).
           destruct (collect_fields_mapping items l' [])
             as (r' & -> & L' & _).
           assert (E : forall k, lookup k r = lookup k r').
           { intros k. now rewrite L, L', (mem_permutation k l l' P). }
           destruct r as [|kv r], r' as [|kv' r']; cbn [truthy fst snd].
           ++ now split.
           ++ exfalso.
              assert (X : kv' :: r' = [])
                by (apply lookup_nowhere; intros k; now rewrite <- E).
              discriminate X.
           ++ exfalso.
              assert (X : kv :: r = [])
                by (apply lookup_nowhere; intros k; now rewrite E).
              discriminate X.
           ++ split; [reflexivity|exact E].
        -- rewrite (collect_fields_non_mapping_permutation data l l' N P).
           destruct (collect_fields l' data []) as [[|kv r]|e]; now split.
      * rewrite !(parse_frontmatter_undecodable w _ _ _ content e R G D).
        now split.
  - rewrite !(parse_frontmatter_unreadable w _ _ _ e R). now split.
Qed.

Lemma field_order_only_orders_keys_witness :
  file_record sample_world ["docs"; "a.md"] ["identifier"; "commonName"]
  = Some [("identifier", PStr "x1"); ("commonName", PStr "Org A")]
  /\ file_record sample_world ["docs"; "a.md"] ["commonName"; "identifier"]
     = Some [("commonName", PStr "Org A"); ("identifier", PStr "x1")]
  /\ file_diagnostics sample_world ["docs"; "a.md"]
       ["identifier"; "commonName"]
     = file_diagnostics sample_world ["docs"; "a.md"]
         ["commonName"; "identifier"].
Proof.
  split; [reflexivity|]. split; [reflexivity|].
  destruct (field_order_only_orders_keys sample_world ["docs"; "a.md"]
              ["identifier"; "commonName"] ["commonName"; "identifier"]
              (perm_swap _ _ _)) as [H _].
  exact H.
Defined.

(** ** The notice *)

(** X17. With [scanpath] bound, [parse_dir] returns [None] exactly when
    no file gave a record, and then, and only then, prints the notice on
    standard output; when it returns a collection it leaves standard
    output as it was.  It never rebinds [scanpath]. *)
Theorem notice_goes_with_none (w : World) (file_path dir : Path)
  (field_list : list string) (st : state) :
  scanpath st = Some dir ->
  exists out st',
    parse_dir w file_path field_list st = (Returned out, st')
    /\ scanpath st' = Some dir
    /\ match out with
       | None =>
           flat_map (fun p => appended (file_record w p field_list))
             (sorted (glob_md w dir)) = []
           /\ stdout st' = (stdout st ++ [notice])%list
       | Some (ConfigMap all_data) =>
           all_data
           = flat_map (fun p => appended (file_record w p field_list))
               (sorted (glob_md w dir))
           /\ all_data <> []
           /\ stdout st' = stdout st
       end.
Proof.
  intros S. pose proof (parse_dir_run w file_path dir field_list st S) as H.
  cbv zeta in H. rewrite H.
  destruct (flat_map (fun p => appended (file_record w p field_list))
              (sorted (glob_md w dir))) as [|r all_data]; cbn [truthy].
  - eexists None, _. split; [reflexivity|]. cbn. now rewrite S.
  - eexists (Some _), _. split; [reflexivity|]. cbn.
    rewrite S. repeat split. discriminate.
Qed.

Lemma notice_goes_with_none_witness :
  exists st',
    parse_dir sample_world ["docs"] ["license"] (mkState [] [] (Some ["docs"]))
    = (Returned None, st')
    /\ stdout st' = [notice].
Proof.
  destruct (notice_goes_with_none sample_world ["docs"] ["docs"] ["license"]
              (mkState [] [] (Some ["docs"])) eq_refl)
    as (out & st' & E & _ & H).
  destruct out as [[all_data]|].
  - destruct H as (-> & N & _). now destruct N.
  - exists st'. split; [exact E|apply H].
Defined.
